(** * Contract function types of the Vyper semantic analyser

    A shallow embedding of [vyper/context/types/function.py]: the two closed
    enumerations [FunctionVisibility] and [StateMutability], the class
    [ContractFunctionType] with its three constructors ([from_abi],
    [from_FunctionDef], [from_AnnAssign]) and the call-site validator
    [fetch_call_return].

    Python exceptions are values of [exn]; a function that may raise returns a
    [result]. What the functions the module imports from the rest of the
    compiler ([get_type_from_abi], [validate_expected_type], ...) answer is
    given by the fields [ext_...] of the class [Collaborators]; every call to
    one of them is recorded, in order, in a log of [event]s carried by the
    monad [M]. *)

From stdpp Require Import base option list strings gmap pretty.

Local Open Scope Z_scope.

Set Warnings "-register-all,-clear-no-such-hyp".

(** ** Exceptions and results *)

(** The exception classes the module raises (its [vyper.exceptions] imports),
    the built-in [KeyError] and [IndexError] and [AttributeError] of the
    subscripts and attribute reads it performs, and the classes the imported
    functions raise. *)
Inductive exn_class :=
  | ArgumentException
  | CallViolation
  | CompilerPanic
  | FunctionDeclarationException
  | InvalidType
  | NamespaceCollision
  | StateAccessViolation
  | StructureException
  | KeyError
  | IndexError
  | AttributeError
  | InvalidEnumValue
  | TypeMismatch
  | UnknownType.

(** Visibility and mutability tags, the members of the two [StringEnum]
    classes of the source. *)
Inductive FunctionVisibility := PUBLIC | PRIVATE.

Inductive StateMutability := PURE | VIEW | NONPAYABLE | PAYABLE.

(** An exception message is an f-string: literal text and interpolated
    values, kept apart so that a message names the value it interpolates. *)
Inductive fpiece :=
  | Lit (s : string)
  | FStr (s : string)
  | FVis (v : FunctionVisibility)
  | FMut (m : StateMutability).

(** An exception: its class and message. The source node every compiler
    exception also carries (for the diagnostic's position) is left out. *)
Record exn := Exn { exn_cls : exn_class; exn_msg : list fpiece }.

Inductive result (A : Type) :=
  | Ok (a : A)
  | Raise (e : exn).
Arguments Ok {A} a.
Arguments Raise {A} e.

#[global] Instance exn_class_eq_dec : EqDecision exn_class.
Proof. solve_decision. Defined.
#[global] Instance FunctionVisibility_eq_dec : EqDecision FunctionVisibility.
Proof. solve_decision. Defined.
#[global] Instance StateMutability_eq_dec : EqDecision StateMutability.
Proof. solve_decision. Defined.

#[global] Instance result_ret : MRet result := @Ok.
#[global] Instance result_bind : MBind result := λ A B f m,
  match m with
  | Ok a => f a
  | Raise e => Raise e
  end.

(** ** StringEnum *)

(** Modelled from the spec: the base class [StringEnum] of
    [vyper/context/types/utils.py], which is not among the sources. The spec
    gives each enumeration as a closed set of canonical string tags
    ([public], [private]; [pure], [view], [nonpayable], [payable]) with
    [is_valid_value(raw)], a membership test that does not raise, and a
    conversion from the raw string (the call [cls(raw)] of the source) that
    fails with an [InvalidEnumValue] kind when [raw] is not a member tag. *)
Class StringEnum (E : Type) := {
  options : list E;
  value : E → string;
  enum_name : string
}.

#[global] Instance FunctionVisibility_enum : StringEnum FunctionVisibility := {|
  options := [PUBLIC; PRIVATE];
  value := λ v, match v with PUBLIC => "public" | PRIVATE => "private" end;
  enum_name := "FunctionVisibility"
|}.

#[global] Instance StateMutability_enum : StringEnum StateMutability := {|
  options := [PURE; VIEW; NONPAYABLE; PAYABLE];
  value := λ m,
    match m with
    | PURE => "pure"
    | VIEW => "view"
    | NONPAYABLE => "nonpayable"
    | PAYABLE => "payable"
    end;
  enum_name := "StateMutability"
|}.

(** Modelled from the spec: [StringEnum.is_valid_value]. *)
Definition is_valid_value (E : Type) `{StringEnum E} (raw : string) : bool :=
  bool_decide (raw ∈ value <$> options).

(** Modelled from the spec: the enumeration's constructor [cls(raw)]. *)
Definition from_raw (E : Type) `{StringEnum E} (raw : string) : result E :=
  match list_find (λ o, value o = raw) options with
  | Some (_, o) => Ok o
  | None =>
      Raise (Exn InvalidEnumValue
               [FStr raw; Lit " is not a valid "; Lit enum_name])
  end.

(** ** ABI records *)

(** One entry of the [inputs] or [outputs] of a JSON ABI function record.
    [item_name] is [None] when the entry has no ["name"] key. *)
Record abi_item := {
  item_name : option string;
  item_type : string
}.

(** A function record of a JSON ABI, by the keys the module reads. A field
    is [None] when the key is absent from the dict. *)
Record abi_dict := {
  abi_name : option string;
  abi_inputs : option (list abi_item);
  abi_outputs : option (list abi_item);
  abi_stateMutability : option string;
  abi_payable : option bool;
  abi_constant : option bool
}.

(** The empty dict [{}]. *)
Definition abi_empty : abi_dict := {|
  abi_name := None;
  abi_inputs := None;
  abi_outputs := None;
  abi_stateMutability := None;
  abi_payable := None;
  abi_constant := None
|}.

(** [StateMutability.from_abi] *)
Definition StateMutability_from_abi (abi : abi_dict) : result StateMutability :=
  match abi_stateMutability abi with
  | Some raw => from_raw StateMutability raw
  | None =>
      if default false (abi_payable abi) then Ok PAYABLE
      else if bool_decide (is_Some (abi_constant abi))
              && default false (abi_constant abi) then Ok VIEW
      else Ok NONPAYABLE
  end.

(** ** Syntax trees *)

(** Modelled from the spec: the node classes of [vyper.ast] the module
    inspects ([vyper/ast/nodes.py] is not among the sources), as a tagged
    variant over the syntactic forms of an expression, and the declaration
    nodes as records of the attributes the module reads. *)
Module vy_ast.

Inductive expr :=
  | Name (id : string)
  | Attribute (value : expr) (attr : string)
  | Subscript (value : expr) (slice : expr)
  | Call (c : call)
  | Tuple (elements : list expr)
  | List (elements : list expr)
  | Str (value : string)
  | Int (value : Z)
with call :=
  | mkCall (func : expr) (args : list expr) (keywords : list keyword)
with keyword :=
  | mkKeyword (arg : string) (value : expr).

Definition func (c : call) : expr := let 'mkCall f _ _ := c in f.
Definition args (c : call) : list expr := let 'mkCall _ a _ := c in a.
Definition keywords (c : call) : list keyword := let 'mkCall _ _ k := c in k.

Definition kw_arg (k : keyword) : string := let 'mkKeyword a _ := k in a.
Definition kw_value (k : keyword) : expr := let 'mkKeyword _ v := k in v.

(** [getattr(node, "id", None)]: only a [Name] has an [id]. *)
Definition get_id (e : expr) : option string :=
  match e with
  | Name id => Some id
  | _ => None
  end.

(** [getattr(node, "value", None)] where the attribute is again a node. The
    [value] of a [Str] or an [Int] is a Python literal, which has no [id]
    and no further attribute the module asks for: it is not a node. *)
Definition get_value (e : expr) : option expr :=
  match e with
  | Attribute v _ => Some v
  | Subscript v _ => Some v
  | _ => None
  end.

(** [node.get("func.id")] on a [Call] node. *)
Definition get_func_id (c : call) : option string := get_id (func c).

(** [node.get("func.value.id")] on a [Call] node: the attribute path is
    followed one step at a time and [None] is the answer as soon as a step
    is missing. *)
Definition get_func_value_id (c : call) : option string :=
  get_value (func c) ≫= get_id.

(** A parameter of a function declaration: [arg.arg] is its name and
    [arg.annotation] its type annotation, if any. *)
Record arg := { arg_arg : string; arg_annotation : option expr }.

(** [node.args] of a [FunctionDef]: the parameters and the default
    expressions of the trailing ones. *)
Record arguments := { args_args : list arg; args_defaults : list expr }.

Record FunctionDef := {
  fd_name : string;
  fd_args : arguments;
  fd_returns : option expr;
  fd_decorator_list : list expr
}.

(** A state-variable declaration [target: annotation]. *)
Record AnnAssign := { aa_target : expr; aa_annotation : expr }.

End vy_ast.

(** ** Types and the functions imported from the rest of the compiler *)

Inductive DataLocation := UNSET | MEMORY | STORAGE | CALLDATA.

(** The two arguments of [validate_expected_type] are Python objects: the
    module passes syntax-tree nodes, type definitions and (once) a string. *)
Inductive pyobj (T : Type) :=
  | PyNode (e : vy_ast.expr)
  | PyStr (s : string)
  | PyType (t : T).
Arguments PyNode {T} e.
Arguments PyStr {T} s.
Arguments PyType {T} t.

(** [arg_count]: an exact count, or the pair (min, max). *)
Inductive arg_count_t :=
  | ArgExact (n : Z)
  | ArgRange (lo hi : Z).

(** The namespace [get_namespace()] returns: the names it holds and the
    members of its entry ["self"]. *)
Record Namespace := {
  ns_names : gset string;
  ns_self_members : gset string
}.

(** What the module takes from the rest of the compiler. [typedef] stands
    for [BaseTypeDefinition] and its subclasses; [is_immutable] is [None]
    where the call leaves the argument to its default. *)
Class Collaborators := {
  typedef : Type;
  Uint256Definition : typedef;
  TupleDefinition : list typedef → typedef;
  ext_get_type_from_abi :
    abi_item → DataLocation → option bool → result typedef;
  ext_get_type_from_annotation :
    vy_ast.expr → DataLocation → option bool → result typedef;
  ext_check_constant : vy_ast.expr → bool;
  ext_validate_expected_type : pyobj typedef → pyobj typedef → result unit;
  ext_validate_call_args :
    vy_ast.call → arg_count_t → list string → result unit;
  ext_get_signature : typedef → result (list typedef * option typedef);
  get_namespace : Namespace
}.

(** ** Python containers *)

(** [collections.OrderedDict] with string keys: the bindings in insertion
    order, each key once. *)
Definition OrderedDict (V : Type) : Type := list (string * V).

Definition od_keys {V} (d : OrderedDict V) : list string := d.*1.
Definition od_values {V} (d : OrderedDict V) : list V := d.*2.

(** [len(d)] *)
Definition od_len {V} (d : OrderedDict V) : Z := Z.of_nat (length d).

(** [k in d] *)
Definition od_contains {V} (k : string) (d : OrderedDict V) : bool :=
  bool_decide (k ∈ od_keys d).

(** [d[k]] where the key is present *)
Fixpoint od_get {V} (k : string) (d : OrderedDict V) : option V :=
  match d with
  | [] => None
  | (k', v) :: d' => if decide (k = k') then Some v else od_get k d'
  end.

(** [d[k] = v]: a key already present keeps its place and takes the new
    value, a new key goes to the end. *)
Fixpoint od_set {V} (k : string) (v : V) (d : OrderedDict V) : OrderedDict V :=
  match d with
  | [] => [(k, v)]
  | (k', v') :: d' =>
      if decide (k = k') then (k', v) :: d' else (k', v') :: od_set k v d'
  end.

(** [l[start:]], with Python's reading of a negative [start]. *)
Definition slice_from {A} (l : list A) (start : Z) : list A :=
  if bool_decide (0 ≤ start) then drop (Z.to_nat start) l
  else drop (Z.to_nat (Z.of_nat (length l) + start)) l.

(** [sep.join(l)] *)
Fixpoint join (sep : string) (l : list string) : string :=
  match l with
  | [] => ""
  | [s] => s
  | s :: l' => s +:+ sep +:+ join sep l'
  end.

(** [d[key]] on a dict of the ABI: [KeyError] when the key is absent. *)
Definition getitem {A} (key : string) (field : option A) : result A :=
  match field with
  | Some a => Ok a
  | None => Raise (Exn KeyError [FStr key])
  end.

(** ** The function type *)

Section function.
Context `{Collaborators}.

(** A call to a function of another module, or a warning issued. *)
Inductive event :=
  | call_get_type_from_abi
      (abi_type : abi_item) (location : DataLocation)
      (is_immutable : option bool)
  | call_get_type_from_annotation
      (node : vy_ast.expr) (location : DataLocation)
      (is_immutable : option bool)
  | call_check_constant (node : vy_ast.expr)
  | call_validate_expected_type (node expected : pyobj typedef)
  | call_validate_call_args
      (node : vy_ast.call) (arg_count : arg_count_t)
      (kwarg_keys : list string)
  | call_get_signature (type_ : typedef)
  | warnings_warn (message category : string).

(** A computation: the events it produced, in order, and how it ended. *)
Record M (A : Type) := mkM { log : list event; outcome : result A }.
#[global] Arguments mkM {A} log outcome.
#[global] Arguments log {A} m.
#[global] Arguments outcome {A} m.

#[global] Instance M_ret : MRet M := λ A a, mkM [] (Ok a).
#[global] Instance M_bind : MBind M := λ A B f m,
  match outcome m with
  | Ok a => mkM (log m ++ log (f a)) (outcome (f a))
  | Raise e => mkM (log m) (Raise e)
  end.

Definition lift {A} (r : result A) : M A := mkM [] r.
Definition raise {A} (cls : exn_class) (msg : list fpiece) : M A :=
  mkM [] (Raise (Exn cls msg)).
Definition external {A} (ev : event) (r : result A) : M A := mkM [ev] r.

(** [for x in xs: body], the variables the body assigns threaded as [s]. *)
Fixpoint for_each {A S} (xs : list A) (body : S → A → M S) (s : S) : M S :=
  match xs with
  | [] => mret s
  | x :: xs' => s' ← body s x; for_each xs' body s'
  end.

Definition get_type_from_abi
    (abi_type : abi_item) (location : DataLocation)
    (is_immutable : option bool) : M typedef :=
  external (call_get_type_from_abi abi_type location is_immutable)
           (ext_get_type_from_abi abi_type location is_immutable).

Definition get_type_from_annotation
    (node : vy_ast.expr) (location : DataLocation)
    (is_immutable : option bool) : M typedef :=
  external (call_get_type_from_annotation node location is_immutable)
           (ext_get_type_from_annotation node location is_immutable).

Definition check_constant (node : vy_ast.expr) : M bool :=
  external (call_check_constant node) (Ok (ext_check_constant node)).

Definition validate_expected_type (node expected : pyobj typedef) : M unit :=
  external (call_validate_expected_type node expected)
           (ext_validate_expected_type node expected).

Definition validate_call_args
    (node : vy_ast.call) (arg_count : arg_count_t)
    (kwarg_keys : list string) : M unit :=
  external (call_validate_call_args node arg_count kwarg_keys)
           (ext_validate_call_args node arg_count kwarg_keys).

Definition get_signature (type_ : typedef)
  : M (list typedef * option typedef) :=
  external (call_get_signature type_) (ext_get_signature type_).

Record ContractFunctionType := {
  location : DataLocation;
  is_immutable : bool;
  is_public : bool;
  name : string;
  arguments : OrderedDict typedef;
  arg_count : arg_count_t;
  return_type : option typedef;
  kwarg_keys : list string;
  visibility : FunctionVisibility;
  mutability : StateMutability;
  nonreentrant : option string
}.

(** [ContractFunctionType.__init__] *)
Definition ContractFunctionType__init__
    (name : string) (arguments : OrderedDict typedef)
    (arg_count : arg_count_t) (return_type : option typedef)
    (function_visibility : FunctionVisibility)
    (state_mutability : StateMutability)
    (nonreentrant : option string) : ContractFunctionType := {|
  location := UNSET;
  is_immutable := true;
  is_public := bool_decide (function_visibility = PUBLIC);
  name := name;
  arguments := arguments;
  arg_count := arg_count;
  return_type := return_type;
  kwarg_keys :=
    match arg_count with
    | ArgRange lo _ => slice_from (od_keys arguments) lo
    | ArgExact _ => []
    end;
  visibility := function_visibility;
  mutability := state_mutability;
  nonreentrant := nonreentrant
|}.

(** The body of the loop of [from_abi] over [abi["inputs"]]. The right-hand
    side [get_type_from_abi(item, ...)] is evaluated before the subscript
    [item["name"]] of the assignment's target. *)
Definition abi_input_step (arguments : OrderedDict typedef) (item : abi_item)
  : M (OrderedDict typedef) :=
  type_ ← get_type_from_abi item CALLDATA (Some true);
  key ← lift (getitem "name" (item_name item));
  mret (od_set key type_ arguments).

(** One element of the tuple [from_abi] builds from [abi["outputs"]]. *)
Definition abi_output_step (types : list typedef) (i : abi_item)
  : M (list typedef) :=
  type_ ← get_type_from_abi i CALLDATA (Some true);
  mret (types ++ [type_]).

(** The return type [from_abi] reads off [abi["outputs"]]: [None] for no
    output, the type of [outputs[0]] when [len(outputs) == 1], a tuple when
    [len(outputs) > 1]. *)
Definition abi_return_type (outputs : list abi_item) : M (option typedef) :=
  match outputs with
  | [] => mret None
  | [o] =>
      type_ ← get_type_from_abi o CALLDATA (Some true);
      mret (Some type_)
  | _ =>
      types ← for_each outputs abi_output_step [];
      mret (Some (TupleDefinition types))
  end.

(** [ContractFunctionType.from_abi] *)
Definition from_abi (abi : abi_dict) : M ContractFunctionType :=
  inputs ← lift (getitem "inputs" (abi_inputs abi));
  arguments ← for_each inputs abi_input_step [];
  outputs ← lift (getitem "outputs" (abi_outputs abi));
  return_type ← abi_return_type outputs;
  name ← lift (getitem "name" (abi_name abi));
  state_mutability ← lift (StateMutability_from_abi abi);
  mret (ContractFunctionType__init__
          name arguments (ArgExact (od_len arguments)) return_type
          PUBLIC state_mutability None).

(** The dict [kwargs] of [from_FunctionDef], by its three possible keys; a
    field is [None] while the key is not in the dict. *)
Record kwargs_t := {
  kw_state_mutability : option StateMutability;
  kw_function_visibility : option FunctionVisibility;
  kw_nonreentrant : option string
}.

(** [kwargs] before the decorators are read: what the two override flags
    give. *)
Definition initial_kwargs (is_immutable is_public : option bool) : kwargs_t := {|
  kw_state_mutability :=
    (λ b : bool, if b then VIEW else NONPAYABLE) <$> is_immutable;
  kw_function_visibility :=
    (λ b : bool, if b then PUBLIC else PRIVATE) <$> is_public;
  kw_nonreentrant := None
|}.

(** [kwargs["state_mutability"] = m], and likewise for the other keys. *)
Definition set_state_mutability (m : StateMutability) (kwargs : kwargs_t)
  : kwargs_t := {|
  kw_state_mutability := Some m;
  kw_function_visibility := kw_function_visibility kwargs;
  kw_nonreentrant := kw_nonreentrant kwargs
|}.

Definition set_function_visibility (v : FunctionVisibility) (kwargs : kwargs_t)
  : kwargs_t := {|
  kw_state_mutability := kw_state_mutability kwargs;
  kw_function_visibility := Some v;
  kw_nonreentrant := kw_nonreentrant kwargs
|}.

Definition set_nonreentrant (key : string) (kwargs : kwargs_t) : kwargs_t := {|
  kw_state_mutability := kw_state_mutability kwargs;
  kw_function_visibility := kw_function_visibility kwargs;
  kw_nonreentrant := Some key
|}.

(** The body of the loop over [node.decorator_list]. *)
Definition decorator_step (kwargs : kwargs_t) (decorator : vy_ast.expr)
  : M kwargs_t :=
  match decorator with
  | vy_ast.Call c =>
      match kw_nonreentrant kwargs with
      | Some key =>
          raise StructureException
            [Lit "nonreentrant decorator is already set with key: "; FStr key]
      | None =>
          if bool_decide (vy_ast.get_func_id c ≠ Some "nonreentrant") then
            raise StructureException [Lit "Decorator is not callable"]
          else
            match vy_ast.args c with
            | [vy_ast.Str s] =>
                mret (set_nonreentrant s kwargs)
            | _ =>
                raise StructureException
                  [Lit "@nonreentrant name must be given as a single string literal"]
            end
      end
  | vy_ast.Name id =>
      if is_valid_value FunctionVisibility id then
        match kw_function_visibility kwargs with
        | Some v =>
            raise FunctionDeclarationException
              [Lit "Visibility is already set to: "; FVis v]
        | None =>
            v ← lift (from_raw FunctionVisibility id);
            mret (set_function_visibility v kwargs)
        end
      else if is_valid_value StateMutability id then
        match kw_state_mutability kwargs with
        | Some m =>
            raise FunctionDeclarationException
              [Lit "Mutability is already set to: "; FMut m]
        | None =>
            m ← lift (from_raw StateMutability id);
            mret (set_state_mutability m kwargs)
        end
      else
        (if bool_decide (id = "constant") then
           mkM [warnings_warn
                  "'@constant' decorator has been removed (see VIP2040). Use `@view` instead."
                  "DeprecationWarning"] (Ok ())
         else mret ());;
        raise FunctionDeclarationException [Lit "Unknown decorator: "; FStr id]
  | _ => raise StructureException [Lit "Bad decorator syntax"]
  end.

(** [arg_count] as [from_FunctionDef] computes it from [node.args]. *)
Definition FunctionDef_arg_count (args : vy_ast.arguments) : arg_count_t :=
  let n := Z.of_nat (length (vy_ast.args_args args)) in
  match vy_ast.args_defaults args with
  | [] => ArgExact n
  | _ :: _ =>
      ArgRange (n - Z.of_nat (length (vy_ast.args_defaults args))) n
  end.

(** The list [defaults] the parameters are zipped with. [[None] * n] is the
    empty list when [n] is negative. *)
Definition FunctionDef_defaults (args : vy_ast.arguments)
    (include_defaults : bool) : list (option vy_ast.expr) :=
  let n := Z.of_nat (length (vy_ast.args_args args)) in
  if include_defaults then
    replicate
      (Z.to_nat (n - Z.of_nat (length (vy_ast.args_defaults args)))) None
    ++ (Some <$> vy_ast.args_defaults args)
  else replicate (Z.to_nat n) None.

(** The body of the loop over the parameters and their defaults. *)
Definition argument_step (arguments : OrderedDict typedef)
    (item : vy_ast.arg * option vy_ast.expr) : M (OrderedDict typedef) :=
  let '(arg, value) := item in
  let namespace := get_namespace in
  if bool_decide (vy_ast.arg_arg arg ∈ ["gas"; "value"]) then
    raise ArgumentException
      [Lit "Cannot use '"; FStr (vy_ast.arg_arg arg);
       Lit "' as a variable name in a function input"]
  else if od_contains (vy_ast.arg_arg arg) arguments then
    raise ArgumentException
      [Lit "Function contains multiple inputs named "; FStr (vy_ast.arg_arg arg)]
  else if bool_decide (vy_ast.arg_arg arg ∈ ns_self_members namespace) then
    raise NamespaceCollision
      [Lit "Name shadows an existing storage-scoped value"]
  else if bool_decide (vy_ast.arg_arg arg ∈ ns_names namespace) then
    raise NamespaceCollision [FStr (vy_ast.arg_arg arg)]
  else
    match vy_ast.arg_annotation arg with
    | None =>
        raise ArgumentException
          [Lit "Function argument '"; FStr (vy_ast.arg_arg arg);
           Lit "' is missing a type"]
    | Some annotation =>
        type_definition ←
          get_type_from_annotation annotation CALLDATA (Some true);
        match value with
        | Some value =>
            constant ← check_constant value;
            (if negb constant then
               raise StateAccessViolation
                 [Lit "Value must be literal or environment variable"]
             else mret ());;
            validate_expected_type (PyNode value) (PyType type_definition)
        | None => mret ()
        end;;
        mret (od_set (vy_ast.arg_arg arg) type_definition arguments)
    end.

(** The return type [from_FunctionDef] reads off [node.returns]. *)
Definition FunctionDef_return_type (returns : option vy_ast.expr)
  : M (option typedef) :=
  match returns with
  | None => mret None
  | Some (vy_ast.Name _ as r)
  | Some (vy_ast.Call _ as r)
  | Some (vy_ast.Subscript _ _ as r) =>
      type_ ← get_type_from_annotation r MEMORY None;
      mret (Some type_)
  | Some (vy_ast.Tuple elements) =>
      tuple_types ← for_each elements (λ tuple_types n,
        type_ ← get_type_from_annotation n MEMORY None;
        mret (tuple_types ++ [type_])) [];
      mret (Some (TupleDefinition tuple_types))
  | Some _ =>
      raise InvalidType
        [Lit "Function return value must be a type name or tuple"]
  end.

(** [ContractFunctionType.from_FunctionDef]. [include_defaults] is the
    truth value of the argument. *)
Definition from_FunctionDef (node : vy_ast.FunctionDef)
    (is_immutable is_public : option bool) (include_defaults : bool)
  : M ContractFunctionType :=
  kwargs ← for_each (vy_ast.fd_decorator_list node) decorator_step
              (initial_kwargs is_immutable is_public);
  function_visibility ←
    match kw_function_visibility kwargs with
    | None =>
        let options := join " or " (value <$> @options FunctionVisibility _) in
        raise FunctionDeclarationException
          [Lit "Visibility must be set to one of "; FStr options]
    | Some v => mret v
    end;
  state_mutability ←
    match kw_state_mutability kwargs with
    | None => lift (from_raw StateMutability "nonpayable")
    | Some m => mret m
    end;
  let arg_count := FunctionDef_arg_count (vy_ast.fd_args node) in
  let defaults := FunctionDef_defaults (vy_ast.fd_args node) include_defaults in
  arguments ←
    for_each (zip (vy_ast.args_args (vy_ast.fd_args node)) defaults)
      argument_step [];
  return_type ← FunctionDef_return_type (vy_ast.fd_returns node);
  mret (ContractFunctionType__init__
          (vy_ast.fd_name node) arguments arg_count return_type
          function_visibility state_mutability (kw_nonreentrant kwargs)).

(** The body of the loop of [from_AnnAssign]:
    [args_dict[f"arg{len(args_dict)}"] = item]. *)
Definition accessor_step (args_dict : OrderedDict typedef) (item : typedef)
  : M (OrderedDict typedef) :=
  mret (od_set ("arg" +:+ pretty (length args_dict)) item args_dict).

(** [ContractFunctionType.from_AnnAssign]. The arguments of [cls(...)] are
    evaluated when the loop is over, [node.target.id] first. *)
Definition from_AnnAssign (node : vy_ast.AnnAssign) : M ContractFunctionType :=
  match vy_ast.aa_annotation node with
  | vy_ast.Call c =>
      arg0 ←
        match vy_ast.args c with
        | a :: _ => mret a
        | [] => raise IndexError [Lit "list index out of range"]
        end;
      type_ ← get_type_from_annotation arg0 STORAGE None;
      '(arguments, return_type) ← get_signature type_;
      args_dict ← for_each arguments accessor_step [];
      name ←
        match vy_ast.get_id (vy_ast.aa_target node) with
        | Some id => mret id
        | None => raise AttributeError [Lit "id"]
        end;
      mret (ContractFunctionType__init__
              name args_dict (ArgExact (Z.of_nat (length arguments)))
              return_type PUBLIC NONPAYABLE None)
  | _ => raise CompilerPanic [Lit "Annotation must be a call to public()"]
  end.

(** [ContractFunctionType.get_signature] *)
Definition ContractFunctionType_get_signature (self : ContractFunctionType)
  : list typedef * option typedef :=
  (od_values (arguments self), return_type self).

(** The body of the loop of [fetch_call_return] over [node.keywords]. *)
Definition keyword_step (_ : unit) (kwarg : vy_ast.keyword) : M unit :=
  if bool_decide (vy_ast.kw_arg kwarg ∈ ["gas"; "value"]) then
    validate_expected_type
      (PyNode (vy_ast.kw_value kwarg)) (PyType Uint256Definition)
  else
    validate_expected_type
      (PyStr (vy_ast.kw_arg kwarg)) (PyNode (vy_ast.kw_value kwarg)).

(** [ContractFunctionType.fetch_call_return] *)
Definition fetch_call_return (self : ContractFunctionType)
    (node : vy_ast.call) : M (option typedef) :=
  if bool_decide (vy_ast.get_func_value_id node = Some "self")
     && bool_decide (visibility self = PUBLIC) then
    raise CallViolation [Lit "Cannnot call public functions via 'self'"]
  else
    let kwarg_keys0 := kwarg_keys self in
    let kwarg_keys :=
      if bool_decide (vy_ast.get_func_value_id node ≠ Some "self")
      then kwarg_keys0 ++ ["gas"; "value"]
      else kwarg_keys0 in
    validate_call_args node (arg_count self) kwarg_keys;;
    for_each (zip (vy_ast.args node) (od_values (arguments self)))
      (λ _ '(arg, expected),
        validate_expected_type (PyNode arg) (PyType expected)) ();;
    for_each (vy_ast.keywords node) keyword_step ();;
    mret (return_type self).

(** *** Vocabulary of the properties *)

(** An event that consults a default expression: the check that it is
    constant, or the validation of its type. *)
Definition consults_default (ev : event) : Prop :=
  match ev with
  | call_check_constant _ | call_validate_expected_type _ _ => True
  | _ => False
  end.

(** [f"arg{i}"], the name [from_AnnAssign] gives to the argument at position [i]. *)
Definition accessor_arg_name (i : nat) : string := "arg" +:+ pretty i.

(** The call [fetch_call_return] makes for a positional argument paired
    with the type declared at its position, and the one it makes for a
    keyword. *)
Definition positional_event (p : vy_ast.expr * typedef) : event :=
  call_validate_expected_type (PyNode p.1) (PyType p.2).

Definition keyword_event (kwarg : vy_ast.keyword) : event :=
  if bool_decide (vy_ast.kw_arg kwarg ∈ ["gas"; "value"]) then
    call_validate_expected_type
      (PyNode (vy_ast.kw_value kwarg)) (PyType Uint256Definition)
  else
    call_validate_expected_type
      (PyStr (vy_ast.kw_arg kwarg)) (PyNode (vy_ast.kw_value kwarg)).

Definition keyword_result (kwarg : vy_ast.keyword) : result unit :=
  if bool_decide (vy_ast.kw_arg kwarg ∈ ["gas"; "value"]) then
    ext_validate_expected_type
      (PyNode (vy_ast.kw_value kwarg)) (PyType Uint256Definition)
  else
    ext_validate_expected_type
      (PyStr (vy_ast.kw_arg kwarg)) (PyNode (vy_ast.kw_value kwarg)).

(** The keyword set [fetch_call_return] hands to [validate_call_args]. *)
Definition accepted_keywords (self : ContractFunctionType)
    (node : vy_ast.call) : list string :=
  if bool_decide (vy_ast.get_func_value_id node ≠ Some "self")
  then kwarg_keys self ++ ["gas"; "value"]
  else kwarg_keys self.

End function.

(** ** A concrete compiler around the module

    Small stand-ins for the imported functions, to run the module on
    concrete declarations and calls. *)
Module demo.

Inductive ty :=
  | Base (name : string)
  | Uint256
  | TupleOf (elts : list ty)
  | Mapping (key val : ty).

Definition known_types : list string :=
  ["uint256"; "int128"; "address"; "bool"; "String"].

(** Type annotations: a known type name, or [HashMap[k, v]]. *)
Fixpoint type_of_annotation (e : vy_ast.expr) : result ty :=
  match e with
  | vy_ast.Name id =>
      if bool_decide (id ∈ known_types) then Ok (Base id)
      else Raise (Exn UnknownType [FStr id])
  | vy_ast.Subscript (vy_ast.Name id) (vy_ast.Tuple [k; v]) =>
      if bool_decide (id = "HashMap") then
        match type_of_annotation k, type_of_annotation v with
        | Ok tk, Ok tv => Ok (Mapping tk tv)
        | Raise e, _ => Raise e
        | _, Raise e => Raise e
        end
      else Raise (Exn UnknownType [FStr id])
  | _ => Raise (Exn InvalidType [Lit "Invalid type annotation"])
  end.

(** The getter of a mapping takes one argument per nesting level. *)
Fixpoint signature_of (t : ty) : list ty * option ty :=
  match t with
  | Mapping k v => let '(a, r) := signature_of v in (k :: a, r)
  | _ => ([], Some t)
  end.

(** A literal of the expected type is accepted; anything else is not, a
    first argument that is no expression in particular. *)
Definition type_check (node expected : pyobj ty) : result unit :=
  match node, expected with
  | PyNode (vy_ast.Int z), PyType Uint256
  | PyNode (vy_ast.Int z), PyType (Base "uint256") =>
      if bool_decide (0 ≤ z) then Ok ()
      else Raise (Exn TypeMismatch [Lit "Expected uint256"])
  | PyNode (vy_ast.Int _), PyType (Base "int128") => Ok ()
  | PyNode (vy_ast.Str _), PyType (Base "String") => Ok ()
  | _, _ => Raise (Exn TypeMismatch [Lit "Given reference has wrong type"])
  end.

(** The count of positional arguments fits [arg_count] and every keyword is
    among [kwarg_keys]. *)
Definition call_args_check (node : vy_ast.call) (arg_count : arg_count_t)
    (kwarg_keys : list string) : result unit :=
  let n := Z.of_nat (length (vy_ast.args node)) in
  let fits :=
    match arg_count with
    | ArgExact m => bool_decide (n = m)
    | ArgRange lo hi => bool_decide (lo ≤ n ≤ hi)
    end in
  if negb fits then
    Raise (Exn ArgumentException [Lit "Invalid argument count"])
  else if bool_decide
            (Forall (λ k, vy_ast.kw_arg k ∈ kwarg_keys) (vy_ast.keywords node))
  then Ok ()
  else Raise (Exn ArgumentException [Lit "Invalid keyword argument"]).

#[global] Instance compiler : Collaborators := {|
  typedef := ty;
  Uint256Definition := Uint256;
  TupleDefinition := TupleOf;
  ext_get_type_from_abi := λ item _ _,
    if bool_decide (item_type item ∈ known_types) then Ok (Base (item_type item))
    else Raise (Exn UnknownType [FStr (item_type item)]);
  ext_get_type_from_annotation := λ e _ _, type_of_annotation e;
  ext_check_constant := λ e,
    match e with
    | vy_ast.Int _ | vy_ast.Str _ => true
    | _ => false
    end;
  ext_validate_expected_type := type_check;
  ext_validate_call_args := call_args_check;
  ext_get_signature := λ t, Ok (signature_of t);
  get_namespace := {| ns_names := {["self"; "msg"]}; ns_self_members := {["owner"]} |}
|}.

(** [name: type_name], a parameter of a declaration. *)
Definition param (name type_name : string) : vy_ast.arg :=
  {| vy_ast.arg_arg := name;
     vy_ast.arg_annotation := Some (vy_ast.Name type_name) |}.

(** [@nonreentrant(key)] *)
Definition nonreentrant_decorator (key : string) : vy_ast.expr :=
  vy_ast.Call (vy_ast.mkCall (vy_ast.Name "nonreentrant") [vy_ast.Str key] []).

(** A declaration with the given decorators, parameters and defaults and no
    return annotation. *)
Definition declaration (decorators : list vy_ast.expr)
    (params : list vy_ast.arg) (defaults : list vy_ast.expr)
  : vy_ast.FunctionDef := {|
  vy_ast.fd_name := "foo";
  vy_ast.fd_args :=
    {| vy_ast.args_args := params; vy_ast.args_defaults := defaults |};
  vy_ast.fd_returns := None;
  vy_ast.fd_decorator_list := decorators
|}.

(** [@public def foo(x: uint256, y: uint256 = 3, z: int128 = 4)] *)
Definition foo_with_defaults : vy_ast.FunctionDef :=
  declaration [vy_ast.Name "public"]
    [param "x" "uint256"; param "y" "uint256"; param "z" "int128"]
    [vy_ast.Int 3; vy_ast.Int 4].

(** [@public def foo(x: uint256, y: uint256)] *)
Definition foo_without_defaults : vy_ast.FunctionDef :=
  declaration [vy_ast.Name "public"]
    [param "x" "uint256"; param "y" "uint256"] [].

(** [@public @payable @view def foo()] *)
Definition foo_payable_and_view : vy_ast.FunctionDef :=
  declaration [vy_ast.Name "public"; vy_ast.Name "payable"; vy_ast.Name "view"]
    [] [].

(** [@payable def foo()], with no visibility *)
Definition foo_without_visibility : vy_ast.FunctionDef :=
  declaration [vy_ast.Name "payable"] [] [].

(** An ABI record whose inputs name [a] twice:
    [{"name": "f", "inputs": [a: uint256, a: address, b: bool],
      "outputs": [bool, bool], "payable": true}]. *)
Definition abi_duplicate_names : abi_dict := {|
  abi_name := Some "f";
  abi_inputs :=
    Some [ {| item_name := Some "a"; item_type := "uint256" |};
           {| item_name := Some "a"; item_type := "address" |};
           {| item_name := Some "b"; item_type := "bool" |} ];
  abi_outputs :=
    Some [ {| item_name := Some ""; item_type := "bool" |};
           {| item_name := Some ""; item_type := "bool" |} ];
  abi_stateMutability := None;
  abi_payable := Some true;
  abi_constant := None
|}.

(** [HashMap[k, v]] *)
Definition hashmap (k v : vy_ast.expr) : vy_ast.expr :=
  vy_ast.Subscript (vy_ast.Name "HashMap") (vy_ast.Tuple [k; v]).

(** [allowance: public(HashMap[address, HashMap[address, uint256]])] *)
Definition allowance : vy_ast.AnnAssign := {|
  vy_ast.aa_target := vy_ast.Name "allowance";
  vy_ast.aa_annotation :=
    vy_ast.Call
      (vy_ast.mkCall (vy_ast.Name "public")
         [hashmap (vy_ast.Name "address")
            (hashmap (vy_ast.Name "address") (vy_ast.Name "uint256"))]
         [])
|}.

(** The type of [@private def foo(a: uint256, b: uint256 = 3)]. *)
Definition foo_private_type : ContractFunctionType :=
  ContractFunctionType__init__ "foo"
    [("a", Base "uint256"); ("b", Base "uint256")]
    (ArgRange 1 2) None PRIVATE NONPAYABLE None.

(** The type of [@public def transfer(amount: uint256)]. *)
Definition transfer_public_type : ContractFunctionType :=
  ContractFunctionType__init__ "transfer"
    [("amount", Base "uint256")] (ArgExact 1) None PUBLIC NONPAYABLE None.

(** The call [self.foo(1, b=2)]. *)
Definition call_self_foo_keyword : vy_ast.call :=
  vy_ast.mkCall (vy_ast.Attribute (vy_ast.Name "self") "foo")
    [vy_ast.Int 1] [vy_ast.mkKeyword "b" (vy_ast.Int 2)].

(** The call [self.transfer(1)]. *)
Definition call_self_transfer : vy_ast.call :=
  vy_ast.mkCall (vy_ast.Attribute (vy_ast.Name "self") "transfer")
    [vy_ast.Int 1] [].

(** The call [token.transfer(1, gas=5)]. *)
Definition call_token_transfer_gas : vy_ast.call :=
  vy_ast.mkCall (vy_ast.Attribute (vy_ast.Name "token") "transfer")
    [vy_ast.Int 1] [vy_ast.mkKeyword "gas" (vy_ast.Int 5)].

(** ABI records with only the keys that decide the mutability. *)
Definition abi_with (stateMutability : option string)
    (payable constant : option bool) : abi_dict := {|
  abi_name := None;
  abi_inputs := None;
  abi_outputs := None;
  abi_stateMutability := stateMutability;
  abi_payable := payable;
  abi_constant := constant
|}.

End demo.

(** * More of the module: vocabulary and inputs of the further properties *)

(** The decorators that set the visibility, those that set the mutability
    and those that are calls, and how many elements of a list pass a
    test. *)
Definition is_visibility_decorator (d : vy_ast.expr) : bool :=
  match d with
  | vy_ast.Name id => is_valid_value FunctionVisibility id
  | _ => false
  end.

Definition is_mutability_decorator (d : vy_ast.expr) : bool :=
  match d with
  | vy_ast.Name id => is_valid_value StateMutability id
  | _ => false
  end.

Definition is_call_decorator (d : vy_ast.expr) : bool :=
  match d with
  | vy_ast.Call _ => true
  | _ => false
  end.

Definition count {A} (f : A → bool) (l : list A) : nat :=
  length (filter (λ x, f x = true) l).

(** 1 for a key that is set, 0 for one that is not. *)
Definition set_count {A} (o : option A) : nat :=
  match o with
  | Some _ => 1
  | None => 0
  end.

Section more_vocabulary.
Context `{Collaborators}.

(** [ContractFunctionType.__repr__] *)
Definition ContractFunctionType_repr (self : ContractFunctionType) : string :=
  "contract function '" +:+ name self +:+ "'".

(** All the calls [fetch_call_return] makes on a call it accepts: the shape
    check, the positional arguments against the declared types by position,
    the keywords. *)
Definition fetch_call_return_calls (self : ContractFunctionType)
    (node : vy_ast.call) : list event :=
  call_validate_call_args node (arg_count self) (accepted_keywords self node)
  :: (positional_event <$> zip (vy_ast.args node) (od_values (arguments self)))
  ++ (keyword_event <$> vy_ast.keywords node).

(** The call [from_abi] makes to resolve the type of an entry. *)
Definition abi_event (item : abi_item) : event :=
  call_get_type_from_abi item CALLDATA (Some true).

End more_vocabulary.

(** More declarations, records and calls for the instance [demo.compiler]. *)
Module samples.

(** The type of [demo.foo_with_defaults]. *)
Definition foo_with_defaults_type : ContractFunctionType :=
  ContractFunctionType__init__ "foo"
    [("x", demo.Base "uint256"); ("y", demo.Base "uint256");
     ("z", demo.Base "int128")]
    (ArgRange 1 3) None PUBLIC NONPAYABLE None.

(** [@public def pair(x: uint256) -> (bool, address)] and its type. *)
Definition pair_declaration : vy_ast.FunctionDef := {|
  vy_ast.fd_name := "pair";
  vy_ast.fd_args :=
    {| vy_ast.args_args := [demo.param "x" "uint256"];
       vy_ast.args_defaults := [] |};
  vy_ast.fd_returns :=
    Some (vy_ast.Tuple [vy_ast.Name "bool"; vy_ast.Name "address"]);
  vy_ast.fd_decorator_list := [vy_ast.Name "public"]
|}.

Definition pair_type : ContractFunctionType :=
  ContractFunctionType__init__ "pair"
    [("x", demo.Base "uint256")] (ArgExact 1)
    (Some (demo.TupleOf [demo.Base "bool"; demo.Base "address"]))
    PUBLIC NONPAYABLE None.

(** [@public @payable @nonreentrant("lock") def foo()] and the same with
    the decorators in another order. *)
Definition foo_locked : vy_ast.FunctionDef :=
  demo.declaration
    [vy_ast.Name "public"; vy_ast.Name "payable";
     demo.nonreentrant_decorator "lock"] [] [].

Definition foo_locked_reordered : vy_ast.FunctionDef :=
  demo.declaration
    [vy_ast.Name "payable"; vy_ast.Name "public";
     demo.nonreentrant_decorator "lock"] [] [].

(** The call [token.transfer(1, 2)]. *)
Definition call_token_transfer_two : vy_ast.call :=
  vy_ast.mkCall (vy_ast.Attribute (vy_ast.Name "token") "transfer")
    [vy_ast.Int 1; vy_ast.Int 2] [].

(** [{"name": "g", "inputs": [to: address, amount: uint256],
      "outputs": [bool], "constant": true}] *)
Definition abi_balance : abi_dict := {|
  abi_name := Some "g";
  abi_inputs :=
    Some [ {| item_name := Some "to"; item_type := "address" |};
           {| item_name := Some "amount"; item_type := "uint256" |} ];
  abi_outputs := Some [ {| item_name := None; item_type := "bool" |} ];
  abi_stateMutability := None;
  abi_payable := None;
  abi_constant := Some true
|}.

(** The same record without its ["outputs"]. *)
Definition abi_without_outputs : abi_dict := {|
  abi_name := Some "g";
  abi_inputs := Some [ {| item_name := Some "to"; item_type := "address" |} ];
  abi_outputs := None;
  abi_stateMutability := None;
  abi_payable := None;
  abi_constant := None
|}.

(** [owner: address], a declaration whose annotation is no call, and
    [x[0]: public(uint256)], whose target is no name. *)
Definition owner_not_public : vy_ast.AnnAssign := {|
  vy_ast.aa_target := vy_ast.Name "owner";
  vy_ast.aa_annotation := vy_ast.Name "address"
|}.

Definition subscript_target : vy_ast.AnnAssign := {|
  vy_ast.aa_target := vy_ast.Subscript (vy_ast.Name "x") (vy_ast.Int 0);
  vy_ast.aa_annotation :=
    vy_ast.Call (vy_ast.mkCall (vy_ast.Name "public") [vy_ast.Name "uint256"] [])
|}.

(** [@public @foo def foo()] *)
Definition foo_unknown_decorator : vy_ast.FunctionDef :=
  demo.declaration [vy_ast.Name "public"; vy_ast.Name "foo"] [] [].


End samples.

(** * Properties *)

(** ** The monad *)

Section monad_facts.
Context `{Collaborators}.

Lemma M_eta {A} (m : M A) : mkM (log m) (outcome m) = m.
Proof. by destruct m. Qed.

Lemma M_left_id {A B} (a : A) (f : A → M B) : mret a ≫= f = f a.
Proof. unfold mret, M_ret, mbind, M_bind. simpl. apply M_eta. Qed.

Lemma M_assoc {A B C} (m : M A) (f : A → M B) (g : B → M C) :
  (m ≫= f) ≫= g = m ≫= (λ a, f a ≫= g).
Proof.
  unfold mbind, M_bind. destruct m as [l [a|e]]; simpl; [|done].
  destruct (f a) as [l' [b|e]]; simpl; [|done].
  by rewrite app_assoc.
Qed.

Lemma bind_outcome_Ok {A B} (m : M A) (f : A → M B) (b : B) :
  outcome (m ≫= f) = Ok b ↔ ∃ a, outcome m = Ok a ∧ outcome (f a) = Ok b.
Proof.
  unfold mbind, M_bind. destruct m as [l [a|e]]; simpl.
  - split; [eauto|]. by intros (a' & [= <-] & ?).
  - split; [done|]. by intros (a' & ? & ?).
Qed.

Lemma bind_log_Ok {A B} (m : M A) (f : A → M B) (a : A) :
  outcome m = Ok a → log (m ≫= f) = log m ++ log (f a).
Proof. unfold mbind, M_bind. by intros ->. Qed.

Lemma bind_Ok {A B} (m : M A) (f : A → M B) (a : A) :
  outcome m = Ok a → m ≫= f = mkM (log m ++ log (f a)) (outcome (f a)).
Proof. unfold mbind, M_bind. by intros ->. Qed.

Lemma bind_Raise {A B} (m : M A) (f : A → M B) (e : exn) :
  outcome m = Raise e → m ≫= f = mkM (log m) (Raise e).
Proof. unfold mbind, M_bind. by intros ->. Qed.

Lemma bind_log_Forall {A B} (P : event → Prop) (m : M A) (f : A → M B) :
  Forall P (log m) → (∀ a, Forall P (log (f a))) → Forall P (log (m ≫= f)).
Proof.
  intros Hm Hf. unfold mbind, M_bind. destruct (outcome m); simpl; [|done].
  apply Forall_app; auto.
Qed.

Lemma for_each_cons {A S} (body : S → A → M S) (x : A) (xs : list A) (s : S) :
  for_each (x :: xs) body s = body s x ≫= for_each xs body.
Proof. done. Qed.

Lemma for_each_ext {A S} (body body' : S → A → M S) (xs : list A) (s : S) :
  (∀ s x, body s x = body' s x) →
  for_each xs body s = for_each xs body' s.
Proof.
  intros Hb. revert s. induction xs as [|x xs IH]; intros s; simpl; [done|].
  rewrite Hb. unfold mbind, M_bind.
  destruct (outcome (body' s x)); [|done]. by rewrite IH.
Qed.

Lemma for_each_app {A S} (body : S → A → M S) (xs ys : list A) (s : S) :
  for_each (xs ++ ys) body s = for_each xs body s ≫= for_each ys body.
Proof.
  revert s. induction xs as [|x xs IH]; intros s.
  - exact (eq_sym (M_left_id s _)).
  - change (body s x ≫= for_each (xs ++ ys) body
            = (body s x ≫= for_each xs body) ≫= for_each ys body).
    rewrite M_assoc. destruct (body s x) as [l [a|e]]; [|done].
    unfold mbind at 1 3, M_bind. cbn [outcome log]. by rewrite IH.
Qed.

Lemma for_each_Ok_ind_from {A S} (I : list A → S → Prop)
    (body : S → A → M S) (xs done : list A) (s s' : S) :
  (∀ done x s1 s2,
      I done s1 → outcome (body s1 x) = Ok s2 → I (done ++ [x]) s2) →
  I done s →
  outcome (for_each xs body s) = Ok s' → I (done ++ xs) s'.
Proof.
  intros Hstep. revert s done.
  induction xs as [|x xs IH]; intros s done Hdone.
  - intros [= <-]. by rewrite app_nil_r.
  - intros (s1 & Hb & Hrest)%bind_outcome_Ok.
    replace (done ++ x :: xs) with ((done ++ [x]) ++ xs)
      by (by rewrite <- app_assoc).
    eapply IH; eauto.
Qed.

(** A property of the loop's state that each successful turn of the body
    carries from what was read so far to one more element holds when the
    loop ends without an exception. *)
Lemma for_each_Ok_ind {A S} (I : list A → S → Prop)
    (body : S → A → M S) (xs : list A) (s s' : S) :
  I [] s →
  (∀ done x s1 s2,
      I done s1 → outcome (body s1 x) = Ok s2 → I (done ++ [x]) s2) →
  outcome (for_each xs body s) = Ok s' → I xs s'.
Proof. intros H0 Hstep. by apply (for_each_Ok_ind_from I body xs []). Qed.

Lemma for_each_external_Ok {A} (ev : A → event) (r : A → result unit)
    (xs : list A) :
  outcome (for_each xs (λ _ x, external (ev x) (r x)) ()) = Ok () →
  ∀ x, x ∈ xs → r x = Ok ().
Proof.
  induction xs as [|x xs IH]; [by intros _ x ?%elem_of_nil|].
  rewrite for_each_cons.
  intros (u & Hx & Hrest)%bind_outcome_Ok y [->|Hy]%elem_of_cons.
  - by destruct u.
  - destruct u. by apply IH.
Qed.

Lemma for_each_app_Ok {A S} (body : S → A → M S) (xs ys : list A) (s s' : S) :
  outcome (for_each (xs ++ ys) body s) = Ok s'
  ↔ ∃ s1, outcome (for_each xs body s) = Ok s1
          ∧ outcome (for_each ys body s1) = Ok s'.
Proof. rewrite for_each_app. apply bind_outcome_Ok. Qed.

Lemma for_each_log_Forall {A S} (P : event → Prop)
    (body : S → A → M S) (xs : list A) (s : S) :
  (∀ s x, x ∈ xs → Forall P (log (body s x))) →
  Forall P (log (for_each xs body s)).
Proof.
  revert s. induction xs as [|x xs IH]; intros s Hb.
  - constructor.
  - rewrite for_each_cons. apply bind_log_Forall.
    + apply Hb. left.
    + intros s1. apply IH. intros s2 y Hy. apply Hb. by right.
Qed.

(** A loop whose body is one call to an imported function: when it ends
    without an exception, its log is the calls for the elements, in order. *)
Lemma for_each_external_log {A} (ev : A → event) (r : A → result unit)
    (xs : list A) :
  outcome (for_each xs (λ _ x, external (ev x) (r x)) ()) = Ok () →
  log (for_each xs (λ _ x, external (ev x) (r x)) ()) = ev <$> xs.
Proof.
  induction xs as [|x xs IH]; [done|]. rewrite for_each_cons.
  intros (u & Hx & Hrest)%bind_outcome_Ok. destruct u.
  rewrite (bind_log_Ok _ _ () Hx). simpl. by rewrite IH.
Qed.

End monad_facts.

(** ** The enumerations and [StateMutability.from_abi] *)

Lemma is_valid_value_StateMutability (raw : string) :
  is_valid_value StateMutability raw = true
  ↔ ∃ m : StateMutability, value m = raw.
Proof.
  unfold is_valid_value. rewrite bool_decide_eq_true, list_elem_of_fmap.
  split.
  - intros (m & -> & _). by exists m.
  - intros (m & <-). exists m. split; [done|]. destruct m; set_solver.
Qed.

Lemma is_valid_value_FunctionVisibility (raw : string) :
  is_valid_value FunctionVisibility raw = true
  ↔ ∃ v : FunctionVisibility, value v = raw.
Proof.
  unfold is_valid_value. rewrite bool_decide_eq_true, list_elem_of_fmap.
  split.
  - intros (m & -> & _). by exists m.
  - intros (m & <-). exists m. split; [done|]. destruct m; set_solver.
Qed.

Lemma from_raw_StateMutability_value (m : StateMutability) :
  from_raw StateMutability (value m) = Ok m.
Proof. by destruct m. Qed.

Lemma from_raw_FunctionVisibility_value (v : FunctionVisibility) :
  from_raw FunctionVisibility (value v) = Ok v.
Proof. by destruct v. Qed.

Lemma from_raw_StateMutability_invalid (raw : string) :
  is_valid_value StateMutability raw = false →
  from_raw StateMutability raw
  = Raise (Exn InvalidEnumValue
             [FStr raw; Lit " is not a valid "; Lit "StateMutability"]).
Proof.
  intros Hraw. unfold from_raw.
  destruct (list_find _ _) as [[i m]|] eqn:Hfind; [|done].
  apply list_find_Some in Hfind as (_ & Hm & _).
  assert (is_valid_value StateMutability raw = true) as Hv
    by (apply is_valid_value_StateMutability; eauto).
  congruence.
Qed.

(** C2, the claim as stated fails: a record whose ["stateMutability"] field
    is not one of the four tags makes [StateMutability.from_abi] raise, so
    it does not return a value for every record. *)
Lemma StateMutability_from_abi_can_raise :
  StateMutability_from_abi (demo.abi_with (Some "readonly") None None)
  = Raise (Exn InvalidEnumValue
             [FStr "readonly"; Lit " is not a valid "; Lit "StateMutability"])
  ∧ ¬ (∀ abi, ∃ m, StateMutability_from_abi abi = Ok m).
Proof.
  split; [done|]. intros Hall.
  by destruct (Hall (demo.abi_with (Some "readonly") None None)) as [m Hm].
Qed.

(** C2, amended: [StateMutability.from_abi] returns a value by the 4-branch
    fallback for every record that has no ["stateMutability"] field or
    holds one of the four tags there: the explicit field wins, else
    [payable: true] gives payable, else [constant: true] gives view, else
    nonpayable. A ["stateMutability"] field that is no tag makes it raise
    the enumeration's invalid-value error. The four examples of the claim
    hold. *)
Theorem StateMutability_from_abi_fallback :
  (∀ abi : abi_dict,
     match abi_stateMutability abi with
     | Some raw =>
         if is_valid_value StateMutability raw
         then ∃ m, StateMutability_from_abi abi = Ok m ∧ value m = raw
         else ∃ msg, StateMutability_from_abi abi
                     = Raise (Exn InvalidEnumValue msg)
     | None =>
         StateMutability_from_abi abi
         = Ok (if bool_decide (abi_payable abi = Some true) then PAYABLE
               else if bool_decide (abi_constant abi = Some true) then VIEW
               else NONPAYABLE)
     end)
  ∧ StateMutability_from_abi abi_empty = Ok NONPAYABLE
  ∧ StateMutability_from_abi (demo.abi_with None (Some true) None) = Ok PAYABLE
  ∧ StateMutability_from_abi (demo.abi_with None None (Some true)) = Ok VIEW
  ∧ StateMutability_from_abi (demo.abi_with (Some "pure") None None) = Ok PURE.
Proof.
  split; [|done]. intros abi. unfold StateMutability_from_abi.
  destruct (abi_stateMutability abi) as [raw|].
  - destruct (is_valid_value StateMutability raw) eqn:Hraw.
    + apply is_valid_value_StateMutability in Hraw as [m <-].
      exists m. by rewrite from_raw_StateMutability_value.
    + rewrite from_raw_StateMutability_invalid by done. eauto.
  - by destruct (abi_payable abi) as [[]|], (abi_constant abi) as [[]|].
Qed.

(** ** OrderedDict *)

Section ordered_dict.
Context {V : Type}.
Implicit Types (d : OrderedDict V) (k : string) (v : V).

Lemma od_keys_cons k v d : od_keys ((k, v) :: d) = k :: od_keys d.
Proof. done. Qed.

Lemma od_set_fresh k v d : k ∉ od_keys d → od_set k v d = d ++ [(k, v)].
Proof.
  induction d as [|[k' v'] d IH]; [done|].
  rewrite od_keys_cons, not_elem_of_cons. intros [Hne Hk]. cbn [od_set].
  case_decide; [done|]. by rewrite IH.
Qed.

Lemma od_keys_set_fresh k v d :
  k ∉ od_keys d → od_keys (od_set k v d) = od_keys d ++ [k].
Proof.
  intros Hk. rewrite od_set_fresh by done. unfold od_keys.
  by rewrite fmap_app.
Qed.

Lemma od_keys_set_present k v d :
  k ∈ od_keys d → od_keys (od_set k v d) = od_keys d.
Proof.
  induction d as [|[k' v'] d IH].
  - by intros ?%elem_of_nil.
  - rewrite od_keys_cons. intros Hk. cbn [od_set]. case_decide; [done|].
    rewrite !od_keys_cons. f_equal. apply IH.
    apply elem_of_cons in Hk as [?|?]; done.
Qed.

Lemma od_keys_set_elem k k' v d :
  k' ∈ od_keys (od_set k v d) ↔ k' = k ∨ k' ∈ od_keys d.
Proof.
  destruct (decide (k ∈ od_keys d)) as [Hk|Hk].
  - rewrite od_keys_set_present by done. naive_solver.
  - rewrite od_keys_set_fresh by done. rewrite elem_of_app, list_elem_of_singleton.
    naive_solver.
Qed.

Lemma od_set_NoDup k v d : NoDup (od_keys d) → NoDup (od_keys (od_set k v d)).
Proof.
  intros Hd. destruct (decide (k ∈ od_keys d)) as [Hk|Hk].
  - by rewrite od_keys_set_present.
  - rewrite od_keys_set_fresh by done. apply NoDup_app. split; [done|].
    split; [|apply NoDup_singleton].
    intros x Hx ->%list_elem_of_singleton. done.
Qed.

Lemma od_get_set k k' v d :
  od_get k' (od_set k v d) = if decide (k' = k) then Some v else od_get k' d.
Proof.
  induction d as [|[k0 v0] d IH]; cbn [od_set od_get].
  - by case_decide.
  - destruct (decide (k = k0)) as [->|Hne]; cbn [od_get].
    + by case_decide.
    + rewrite IH. repeat case_decide; congruence.
Qed.

Lemma od_get_None k d : od_get k d = None ↔ k ∉ od_keys d.
Proof.
  induction d as [|[k0 v0] d IH]; cbn [od_get].
  - split; [intros _; apply not_elem_of_nil|done].
  - rewrite od_keys_cons, not_elem_of_cons. case_decide; naive_solver.
Qed.

Lemma od_contains_true k d : od_contains k d = true ↔ k ∈ od_keys d.
Proof. apply bool_decide_eq_true. Qed.

Lemma od_contains_false k d : od_contains k d = false ↔ k ∉ od_keys d.
Proof. apply bool_decide_eq_false. Qed.

Lemma od_len_keys d : od_len d = Z.of_nat (length (od_keys d)).
Proof. unfold od_len, od_keys. by rewrite length_fmap. Qed.

End ordered_dict.

Lemma slice_from_drop {A} (l : list A) (start : nat) :
  slice_from l (Z.of_nat start) = drop start l.
Proof.
  unfold slice_from. rewrite bool_decide_eq_true_2 by lia.
  by rewrite Nat2Z.id.
Qed.

(** ** Construction from a declaration *)

Section from_FunctionDef_facts.
Context `{Collaborators}.

(** A turn of the parameter loop that raises nothing has met a new name and
    has bound it, at the end of the mapping. *)
Lemma argument_step_Ok (arguments arguments' : OrderedDict typedef)
    (arg : vy_ast.arg) (value : option vy_ast.expr) :
  outcome (argument_step arguments (arg, value)) = Ok arguments' →
  (vy_ast.arg_arg arg ∉ od_keys arguments)
  ∧ (∃ t, arguments' = od_set (vy_ast.arg_arg arg) t arguments).
Proof.
  unfold argument_step.
  case_bool_decide; [done|].
  destruct (od_contains _ _) eqn:Hc; [done|].
  case_bool_decide; [done|]. case_bool_decide; [done|].
  destruct (vy_ast.arg_annotation arg) as [annotation|]; [|done].
  intros (t & _ & Hrest)%bind_outcome_Ok.
  apply bind_outcome_Ok in Hrest as (u & _ & [= <-]).
  split; [by apply od_contains_false|eauto].
Qed.

Lemma argument_loop_keys (items : list (vy_ast.arg * option vy_ast.expr))
    (arguments : OrderedDict typedef) :
  outcome (for_each items argument_step []) = Ok arguments →
  od_keys arguments = (vy_ast.arg_arg ∘ fst) <$> items.
Proof.
  apply (for_each_Ok_ind
           (λ done d, od_keys d = (vy_ast.arg_arg ∘ fst) <$> done)); [done|].
  intros done [arg value] d1 d2 Hd1 (Hfresh & t & ->)%argument_step_Ok.
  rewrite od_keys_set_fresh by done. by rewrite fmap_app, Hd1.
Qed.

Lemma FunctionDef_defaults_length (args : vy_ast.arguments)
    (include_defaults : bool) :
  (length (vy_ast.args_defaults args) ≤ length (vy_ast.args_args args))%nat →
  length (FunctionDef_defaults args include_defaults)
  = length (vy_ast.args_args args).
Proof.
  intros Hk. unfold FunctionDef_defaults. destruct include_defaults.
  - rewrite length_app, length_replicate, length_fmap. lia.
  - rewrite length_replicate. lia.
Qed.

(** What a successful construction went through. *)
Lemma from_FunctionDef_Ok (node : vy_ast.FunctionDef)
    (is_immutable is_public : option bool) (include_defaults : bool)
    (ft : ContractFunctionType) :
  outcome (from_FunctionDef node is_immutable is_public include_defaults)
  = Ok ft →
  ∃ kwargs function_visibility arguments return_type,
    outcome (for_each (vy_ast.fd_decorator_list node) decorator_step
               (initial_kwargs is_immutable is_public)) = Ok kwargs
    ∧ kw_function_visibility kwargs = Some function_visibility
    ∧ outcome (for_each
                 (zip (vy_ast.args_args (vy_ast.fd_args node))
                      (FunctionDef_defaults (vy_ast.fd_args node)
                         include_defaults))
                 argument_step []) = Ok arguments
    ∧ outcome (FunctionDef_return_type (vy_ast.fd_returns node))
      = Ok return_type
    ∧ ft = ContractFunctionType__init__
             (vy_ast.fd_name node) arguments
             (FunctionDef_arg_count (vy_ast.fd_args node)) return_type
             function_visibility
             (default NONPAYABLE (kw_state_mutability kwargs))
             (kw_nonreentrant kwargs).
Proof.
  unfold from_FunctionDef.
  intros (kwargs & Hkw & Hrest)%bind_outcome_Ok.
  apply bind_outcome_Ok in Hrest as (v & Hv & Hrest).
  apply bind_outcome_Ok in Hrest as (m & Hm & Hrest).
  apply bind_outcome_Ok in Hrest as (arguments & Hargs & Hrest).
  apply bind_outcome_Ok in Hrest as (return_type & Hret & [= <-]).
  exists kwargs, v, arguments, return_type.
  destruct (kw_function_visibility kwargs) as [v'|]; [|done].
  injection Hv as ->.
  repeat split; try done.
  destruct (kw_state_mutability kwargs) as [m'|].
  - injection Hm as <-. done.
  - vm_compute in Hm. injection Hm as <-. done.
Qed.

(** The arity and the keyword keys of a constructed type, from the
    declaration's parameters and defaults. *)
Lemma from_FunctionDef_arg_count_kwarg_keys (node : vy_ast.FunctionDef)
    (is_immutable is_public : option bool) (include_defaults : bool)
    (ft : ContractFunctionType) :
  let params := vy_ast.args_args (vy_ast.fd_args node) in
  let defaults := vy_ast.args_defaults (vy_ast.fd_args node) in
  (length defaults ≤ length params)%nat →
  outcome (from_FunctionDef node is_immutable is_public include_defaults)
  = Ok ft →
  arg_count ft = FunctionDef_arg_count (vy_ast.fd_args node)
  ∧ kwarg_keys ft =
      match defaults with
      | [] => []
      | _ :: _ =>
          drop (length params - length defaults) (vy_ast.arg_arg <$> params)
      end.
Proof.
  intros params defaults Hk
    (kwargs & v & arguments & rt & _ & _ & Hargs & _ & ->)%from_FunctionDef_Ok.
  split; [done|]. cbn [kwarg_keys ContractFunctionType__init__].
  apply argument_loop_keys in Hargs. rewrite list_fmap_compose in Hargs.
  rewrite fst_zip in Hargs by (rewrite FunctionDef_defaults_length; done).
  unfold FunctionDef_arg_count. fold params defaults.
  destruct defaults as [|d0 defaults0] eqn:Hd; [done|].
  rewrite <- Nat2Z.inj_sub by done. rewrite slice_from_drop.
  by rewrite Hargs.
Qed.

(** Logs free of such events, by the shape of the computation. *)
Ltac quiet_log :=
  repeat match goal with
  | |- Forall _ (log (_ ≫= _)) => apply bind_log_Forall; [|intros ?]
  | |- Forall _ (log (match ?x with _ => _ end)) => destruct x eqn:?
  | |- Forall _ (log (raise _ _)) => apply Forall_nil_2
  | |- Forall _ (log (lift _)) => apply Forall_nil_2
  | |- Forall _ (log (mret _)) => apply Forall_nil_2
  | |- Forall _ (log (mkM _ _)) => simpl
  | |- Forall _ (log (external _ _)) =>
      apply Forall_cons_2; [by intros []|apply Forall_nil_2]
  | |- Forall _ [] => apply Forall_nil_2
  | |- Forall _ (_ :: _) => apply Forall_cons_2; [by intros []|]
  end.

Lemma decorator_step_log (kwargs : kwargs_t) (decorator : vy_ast.expr) :
  Forall (λ ev, ¬ consults_default ev) (log (decorator_step kwargs decorator)).
Proof. unfold decorator_step. quiet_log. Qed.

Lemma argument_step_no_default_log (arguments : OrderedDict typedef)
    (arg : vy_ast.arg) :
  Forall (λ ev, ¬ consults_default ev)
         (log (argument_step arguments (arg, None))).
Proof.
  unfold argument_step, get_type_from_annotation. quiet_log.
Qed.

Lemma FunctionDef_return_type_log (returns : option vy_ast.expr) :
  Forall (λ ev, ¬ consults_default ev) (log (FunctionDef_return_type returns)).
Proof.
  unfold FunctionDef_return_type, get_type_from_annotation. quiet_log.
  apply for_each_log_Forall. intros ts n _. quiet_log.
Qed.

(** Without the defaults, construction never consults a default
    expression, however it ends. *)
Lemma from_FunctionDef_no_defaults_log (node : vy_ast.FunctionDef)
    (is_immutable is_public : option bool) :
  Forall (λ ev, ¬ consults_default ev)
         (log (from_FunctionDef node is_immutable is_public false)).
Proof.
  unfold from_FunctionDef.
  apply bind_log_Forall.
  { apply for_each_log_Forall. intros. apply decorator_step_log. }
  intros kwargs. apply bind_log_Forall; [quiet_log|].
  intros v. apply bind_log_Forall; [quiet_log|].
  intros m. apply bind_log_Forall.
  { apply for_each_log_Forall. intros d [arg value] Hin.
    apply elem_of_zip_r in Hin. unfold FunctionDef_defaults in Hin.
    apply elem_of_replicate in Hin as [-> _].
    apply argument_step_no_default_log. }
  intros arguments. apply bind_log_Forall.
  { apply FunctionDef_return_type_log. }
  intros rt. constructor.
Qed.

End from_FunctionDef_facts.

(** C3: for a declaration with n parameters of which the trailing k carry a
    default, the constructed type has the exact arity n and no keyword keys
    when k = 0, and the arity (n - k, n) and the last k parameter names, in
    declaration order, as its keyword keys when k > 0. *)
Theorem from_FunctionDef_arity `{Collaborators} (node : vy_ast.FunctionDef)
    (is_immutable is_public : option bool) (include_defaults : bool)
    (ft : ContractFunctionType) :
  let params := vy_ast.args_args (vy_ast.fd_args node) in
  let n := length params in
  let k := length (vy_ast.args_defaults (vy_ast.fd_args node)) in
  (k ≤ n)%nat →
  outcome (from_FunctionDef node is_immutable is_public include_defaults)
  = Ok ft →
  (k = 0%nat → arg_count ft = ArgExact (Z.of_nat n) ∧ kwarg_keys ft = [])
  ∧ ((0 < k)%nat →
     arg_count ft = ArgRange (Z.of_nat n - Z.of_nat k) (Z.of_nat n)
     ∧ kwarg_keys ft = drop (n - k) (vy_ast.arg_arg <$> params)).
Proof.
  intros params n k Hk Hok.
  destruct (from_FunctionDef_arg_count_kwarg_keys _ _ _ _ _ Hk Hok)
    as [-> ->].
  unfold FunctionDef_arg_count. subst k n params.
  destruct (vy_ast.args_defaults (vy_ast.fd_args node)); simpl.
  - split; [done|lia].
  - split; [done|]. intros _. split; [|done]. f_equal; lia.
Qed.

(** [foo(x, y = 3, z = 4)]: arity (1, 3), keyword keys [y], [z]. *)
Lemma from_FunctionDef_arity_witness :
  ∃ ft,
    outcome (from_FunctionDef demo.foo_with_defaults None None true) = Ok ft
    ∧ arg_count ft = ArgRange 1 3 ∧ kwarg_keys ft = ["y"; "z"].
Proof.
  eexists. split; [vm_compute; reflexivity|].
  apply (from_FunctionDef_arity demo.foo_with_defaults None None true);
    [simpl; lia | vm_compute; reflexivity | simpl; lia].
Defined.

(** C9: with [include_defaults=False] and k > 0 trailing defaults out of n
    parameters, no default expression is checked for constancy or
    type-validated, the arity is still the pair (n - k, n) and there are
    still k keyword keys: the same arity and keyword keys as the full view
    has whenever that one is constructed too. *)
Theorem from_FunctionDef_signature_only `{Collaborators}
    (node : vy_ast.FunctionDef) (is_immutable is_public : option bool)
    (ft : ContractFunctionType) :
  let n := length (vy_ast.args_args (vy_ast.fd_args node)) in
  let k := length (vy_ast.args_defaults (vy_ast.fd_args node)) in
  (0 < k ≤ n)%nat →
  outcome (from_FunctionDef node is_immutable is_public false) = Ok ft →
  Forall (λ ev, ¬ consults_default ev)
         (log (from_FunctionDef node is_immutable is_public false))
  ∧ arg_count ft = ArgRange (Z.of_nat n - Z.of_nat k) (Z.of_nat n)
  ∧ length (kwarg_keys ft) = k
  ∧ ∀ ft',
      outcome (from_FunctionDef node is_immutable is_public true) = Ok ft' →
      arg_count ft' = arg_count ft ∧ kwarg_keys ft' = kwarg_keys ft.
Proof.
  intros n k [Hpos Hk] Hok.
  split; [apply from_FunctionDef_no_defaults_log|].
  destruct (from_FunctionDef_arg_count_kwarg_keys _ _ _ _ _ Hk Hok)
    as [Hc Hkeys].
  assert (∀ ft',
    outcome (from_FunctionDef node is_immutable is_public true) = Ok ft' →
    arg_count ft' = arg_count ft ∧ kwarg_keys ft' = kwarg_keys ft) as Hfull.
  { intros ft' Hok'.
    destruct (from_FunctionDef_arg_count_kwarg_keys _ _ _ _ _ Hk Hok')
      as [-> ->].
    by rewrite Hc, Hkeys. }
  split; [|split; [|done]].
  - rewrite Hc. unfold FunctionDef_arg_count. subst k n.
    destruct (vy_ast.args_defaults (vy_ast.fd_args node)); [simpl in Hpos; lia|].
    done.
  - rewrite Hkeys. subst k n.
    destruct (vy_ast.args_defaults (vy_ast.fd_args node)); [simpl in Hpos; lia|].
    rewrite length_drop, length_fmap. lia.
Qed.

(** The same declaration without its defaults. *)
Lemma from_FunctionDef_signature_only_witness :
  ∃ ft,
    outcome (from_FunctionDef demo.foo_with_defaults None None false) = Ok ft
    ∧ Forall (λ ev, ¬ consults_default ev)
             (log (from_FunctionDef demo.foo_with_defaults None None false))
    ∧ arg_count ft = ArgRange 1 3
    ∧ length (kwarg_keys ft) = 2%nat.
Proof.
  eexists. split; [vm_compute; reflexivity|].
  destruct (from_FunctionDef_signature_only
              demo.foo_with_defaults None None
              (@ContractFunctionType__init__ demo.compiler
                 "foo"
                 [("x", demo.Base "uint256"); ("y", demo.Base "uint256");
                  ("z", demo.Base "int128")]
                 (ArgRange 1 3) None PUBLIC NONPAYABLE None))
    as (Hlog & Hc & Hlen & _).
  - simpl; lia.
  - vm_compute; reflexivity.
  - split; [exact Hlog|]. split; [exact Hc|exact Hlen].
Defined.

(** ** Decorators *)

Section decorator_facts.
Context `{Collaborators}.

Lemma mutability_tag_is_no_visibility_tag (m : StateMutability) :
  is_valid_value FunctionVisibility (value m) = false.
Proof. by destruct m. Qed.

(** A decorator that raises nothing sets one key of [kwargs] that was not
    set before. *)
Lemma decorator_step_Ok (kwargs kwargs' : kwargs_t) (d : vy_ast.expr) :
  outcome (decorator_step kwargs d) = Ok kwargs' →
  (∃ v : FunctionVisibility,
      d = vy_ast.Name (value v)
      ∧ kw_function_visibility kwargs = None
      ∧ kwargs' = set_function_visibility v kwargs)
  ∨ (∃ m : StateMutability,
      d = vy_ast.Name (value m)
      ∧ kw_state_mutability kwargs = None
      ∧ kwargs' = set_state_mutability m kwargs)
  ∨ (∃ c key,
      d = vy_ast.Call c
      ∧ vy_ast.get_func_id c = Some "nonreentrant"
      ∧ vy_ast.args c = [vy_ast.Str key]
      ∧ kw_nonreentrant kwargs = None
      ∧ kwargs' = set_nonreentrant key kwargs).
Proof.
  unfold decorator_step. destruct d as [id| | |c| | | |]; try done.
  - destruct (is_valid_value FunctionVisibility id) eqn:Hvis.
    { apply is_valid_value_FunctionVisibility in Hvis as [v <-].
      destruct (kw_function_visibility kwargs) eqn:Hkw; [done|].
      rewrite from_raw_FunctionVisibility_value. intros [= <-].
      left. eauto. }
    destruct (is_valid_value StateMutability id) eqn:Hmut.
    { apply is_valid_value_StateMutability in Hmut as [m <-].
      destruct (kw_state_mutability kwargs) eqn:Hkw; [done|].
      rewrite from_raw_StateMutability_value. intros [= <-].
      right. left. eauto. }
    by case_bool_decide.
  - destruct (kw_nonreentrant kwargs) eqn:Hkw; [done|].
    case_bool_decide as Hid; [done|].
    destruct (vy_ast.args c) as [|[] []] eqn:Hargs; try done.
    intros [= <-]. right. right. eexists _, _. repeat split; done.
Qed.

(** A value found in [kwargs] after some decorators was put there by the
    override flag or by one of these decorators. *)
Lemma decorators_provenance (is_immutable is_public : option bool)
    (decorators : list vy_ast.expr) (kwargs : kwargs_t) :
  outcome (for_each decorators decorator_step
             (initial_kwargs is_immutable is_public)) = Ok kwargs →
  (∀ v, kw_function_visibility kwargs = Some v →
        kw_function_visibility (initial_kwargs is_immutable is_public) = Some v
        ∨ vy_ast.Name (value v) ∈ decorators)
  ∧ (∀ m, kw_state_mutability kwargs = Some m →
        kw_state_mutability (initial_kwargs is_immutable is_public) = Some m
        ∨ vy_ast.Name (value m) ∈ decorators)
  ∧ (∀ key, kw_nonreentrant kwargs = Some key →
        ∃ c, vy_ast.Call c ∈ decorators
             ∧ vy_ast.get_func_id c = Some "nonreentrant"
             ∧ vy_ast.args c = [vy_ast.Str key]).
Proof.
  apply (for_each_Ok_ind (λ done kw,
    (∀ v, kw_function_visibility kw = Some v →
          kw_function_visibility (initial_kwargs is_immutable is_public) = Some v
          ∨ vy_ast.Name (value v) ∈ done)
    ∧ (∀ m, kw_state_mutability kw = Some m →
          kw_state_mutability (initial_kwargs is_immutable is_public) = Some m
          ∨ vy_ast.Name (value m) ∈ done)
    ∧ (∀ key, kw_nonreentrant kw = Some key →
          ∃ c, vy_ast.Call c ∈ done
               ∧ vy_ast.get_func_id c = Some "nonreentrant"
               ∧ vy_ast.args c = [vy_ast.Str key]))).
  { split; [by left|]. split; [by left|]. by intros key [=]. }
  intros done d kw kw' (Hv & Hm & Hl) Hstep.
  setoid_rewrite elem_of_app. setoid_rewrite list_elem_of_singleton.
  apply decorator_step_Ok in Hstep
    as [(v & -> & _ & ->)|[(m & -> & _ & ->)|(c & key & -> & Hid & Hargs & _ & ->)]];
    simpl.
  - split; [|naive_solver]. intros v' [= <-]. auto.
  - split; [naive_solver|]. split; [|naive_solver].
    intros m' [= <-]. auto.
  - split; [naive_solver|]. split; [naive_solver|].
    intros key' [= <-]. exists c. auto.
Qed.

(** An exception raised by a decorator, the ones before it having raised
    none, is the outcome of the construction. *)
Lemma from_FunctionDef_decorator_raises (node : vy_ast.FunctionDef)
    (is_immutable is_public : option bool) (include_defaults : bool)
    (pre post : list vy_ast.expr) (d : vy_ast.expr)
    (kwargs : kwargs_t) (e : exn) :
  vy_ast.fd_decorator_list node = pre ++ d :: post →
  outcome (for_each pre decorator_step
             (initial_kwargs is_immutable is_public)) = Ok kwargs →
  decorator_step kwargs d = mkM [] (Raise e) →
  from_FunctionDef node is_immutable is_public include_defaults
  = mkM (log (for_each pre decorator_step
                (initial_kwargs is_immutable is_public)))
        (Raise e).
Proof.
  intros Hlist Hpre Hd. unfold from_FunctionDef.
  rewrite Hlist, for_each_app, M_assoc, (bind_Ok _ _ _ Hpre).
  rewrite for_each_cons, !M_assoc, Hd.
  simpl. by rewrite app_nil_r.
Qed.

Lemma visibility_tag_is_no_mutability_tag
    (v : FunctionVisibility) (m : StateMutability) :
  value v ≠ value m.
Proof. by destruct v, m. Qed.

(** After the decorators, a key is missing from [kwargs] exactly when
    neither the override flag nor a decorator set it. *)
Lemma decorators_never_set (is_immutable is_public : option bool)
    (decorators : list vy_ast.expr) (kwargs : kwargs_t) :
  outcome (for_each decorators decorator_step
             (initial_kwargs is_immutable is_public)) = Ok kwargs →
  (kw_function_visibility kwargs = None
   ↔ is_public = None
     ∧ ∀ v : FunctionVisibility, vy_ast.Name (value v) ∉ decorators)
  ∧ (kw_state_mutability kwargs = None
     ↔ is_immutable = None
       ∧ ∀ m : StateMutability, vy_ast.Name (value m) ∉ decorators).
Proof.
  apply (for_each_Ok_ind (λ done kw,
    (kw_function_visibility kw = None
     ↔ is_public = None
       ∧ ∀ v : FunctionVisibility, vy_ast.Name (value v) ∉ done)
    ∧ (kw_state_mutability kw = None
       ↔ is_immutable = None
         ∧ ∀ m : StateMutability, vy_ast.Name (value m) ∉ done))).
  { split.
    - destruct is_public; simpl; split; try done; try by intros [? _].
      intros _. split; [done|]. intros v. apply not_elem_of_nil.
    - destruct is_immutable; simpl; split; try done; try by intros [? _].
      intros _. split; [done|]. intros v. apply not_elem_of_nil. }
  intros done d kw kw' (Hv & Hm) Hstep.
  setoid_rewrite not_elem_of_app. setoid_rewrite list_elem_of_singleton.
  apply decorator_step_Ok in Hstep
    as [(v & -> & _ & ->)|[(m & -> & _ & ->)|(c & key & -> & _ & _ & _ & ->)]];
    simpl.
  - split.
    + split; [done|]. intros [_ Hno]. by destruct (Hno v) as [_ []].
    + rewrite Hm. split.
      * intros [? Hno]. split; [done|]. intros m. split; [apply Hno|].
        intros [= Heq]. by apply (visibility_tag_is_no_mutability_tag v m).
      * intros [? Hno]. split; [done|]. intros m. by destruct (Hno m).
  - split.
    + rewrite Hv. split.
      * intros [? Hno]. split; [done|]. intros v. split; [apply Hno|].
        intros [= Heq]. by apply (visibility_tag_is_no_mutability_tag v m).
      * intros [? Hno]. split; [done|]. intros v. by destruct (Hno v).
    + split; [done|]. intros [_ Hno]. by destruct (Hno m) as [_ []].
  - rewrite Hv, Hm. naive_solver.
Qed.

End decorator_facts.

(** C5: while the decorators of a declaration are read, a decorator that
    sets the visibility, the mutability or the reentrancy lock when that one
    is already set (by the override flag or by an earlier decorator) makes
    the construction raise an error that names the value set before; nothing
    is overwritten. *)
Theorem from_FunctionDef_set_once `{Collaborators} (node : vy_ast.FunctionDef)
    (is_immutable is_public : option bool) (include_defaults : bool)
    (pre post : list vy_ast.expr) (d : vy_ast.expr) (kwargs : kwargs_t) :
  vy_ast.fd_decorator_list node = pre ++ d :: post →
  outcome (for_each pre decorator_step
             (initial_kwargs is_immutable is_public)) = Ok kwargs →
  let raises cls msg :=
    from_FunctionDef node is_immutable is_public include_defaults
    = mkM (log (for_each pre decorator_step
                  (initial_kwargs is_immutable is_public)))
          (Raise (Exn cls msg)) in
  (∀ id v,
      d = vy_ast.Name id →
      is_valid_value FunctionVisibility id = true →
      kw_function_visibility kwargs = Some v →
      raises FunctionDeclarationException
        [Lit "Visibility is already set to: "; FVis v]
      ∧ (kw_function_visibility (initial_kwargs is_immutable is_public)
         = Some v
         ∨ vy_ast.Name (value v) ∈ pre))
  ∧ (∀ id m,
      d = vy_ast.Name id →
      is_valid_value StateMutability id = true →
      kw_state_mutability kwargs = Some m →
      raises FunctionDeclarationException
        [Lit "Mutability is already set to: "; FMut m]
      ∧ (kw_state_mutability (initial_kwargs is_immutable is_public) = Some m
         ∨ vy_ast.Name (value m) ∈ pre))
  ∧ (∀ c key,
      d = vy_ast.Call c →
      kw_nonreentrant kwargs = Some key →
      raises StructureException
        [Lit "nonreentrant decorator is already set with key: "; FStr key]
      ∧ ∃ c', vy_ast.Call c' ∈ pre
              ∧ vy_ast.get_func_id c' = Some "nonreentrant"
              ∧ vy_ast.args c' = [vy_ast.Str key]).
Proof.
  intros Hlist Hpre raises.
  destruct (decorators_provenance _ _ _ _ Hpre) as (Pv & Pm & Pl).
  split; [|split].
  - intros id v -> Hid Hkw. split; [|by apply Pv].
    apply (from_FunctionDef_decorator_raises _ _ _ _ _ _ _ _ _ Hlist Hpre).
    unfold decorator_step. by rewrite Hid, Hkw.
  - intros id m -> Hid Hkw. split; [|by apply Pm].
    apply (from_FunctionDef_decorator_raises _ _ _ _ _ _ _ _ _ Hlist Hpre).
    unfold decorator_step.
    apply is_valid_value_StateMutability in Hid as Hid'.
    destruct Hid' as [m' <-].
    by rewrite mutability_tag_is_no_visibility_tag, Hid, Hkw.
  - intros c key -> Hkw. split; [|by apply Pl].
    apply (from_FunctionDef_decorator_raises _ _ _ _ _ _ _ _ _ Hlist Hpre).
    unfold decorator_step. by rewrite Hkw.
Qed.

(** [@public @payable @view]: the second mutability is refused. *)
Lemma from_FunctionDef_set_once_witness :
  from_FunctionDef demo.foo_payable_and_view None None true
  = mkM [] (Raise (Exn FunctionDeclarationException
                     [Lit "Mutability is already set to: "; FMut PAYABLE])).
Proof.
  destruct (from_FunctionDef_set_once
              demo.foo_payable_and_view None None true
              [vy_ast.Name "public"; vy_ast.Name "payable"] []
              (vy_ast.Name "view")
              (set_state_mutability PAYABLE
                 (set_function_visibility PUBLIC (initial_kwargs None None))))
    as (_ & Hm & _).
  - reflexivity.
  - vm_compute; reflexivity.
  - destruct (Hm "view" PAYABLE) as [Hraise _].
    + reflexivity.
    + vm_compute; reflexivity.
    + reflexivity.
    + exact Hraise.
Defined.

(** C8: when the decorators have been read, a visibility set neither by the
    override flag nor by a decorator makes the construction raise the
    error that the visibility must be set; a mutability that was never set
    is taken as nonpayable and the construction goes on to the
    parameters. *)
Theorem from_FunctionDef_visibility_required `{Collaborators}
    (node : vy_ast.FunctionDef) (is_immutable is_public : option bool)
    (include_defaults : bool) (kwargs : kwargs_t) :
  outcome (for_each (vy_ast.fd_decorator_list node) decorator_step
             (initial_kwargs is_immutable is_public)) = Ok kwargs →
  (kw_function_visibility kwargs = None
   ↔ is_public = None
     ∧ ∀ v : FunctionVisibility,
         vy_ast.Name (value v) ∉ vy_ast.fd_decorator_list node)
  ∧ (kw_state_mutability kwargs = None
     ↔ is_immutable = None
       ∧ ∀ m : StateMutability,
           vy_ast.Name (value m) ∉ vy_ast.fd_decorator_list node)
  ∧ (kw_function_visibility kwargs = None →
     from_FunctionDef node is_immutable is_public include_defaults
     = mkM (log (for_each (vy_ast.fd_decorator_list node) decorator_step
                   (initial_kwargs is_immutable is_public)))
           (Raise (Exn FunctionDeclarationException
                     [Lit "Visibility must be set to one of ";
                      FStr "public or private"])))
  ∧ (∀ v,
      kw_function_visibility kwargs = Some v →
      kw_state_mutability kwargs = None →
      outcome (from_FunctionDef node is_immutable is_public include_defaults)
      = outcome (
          arguments ←
            for_each
              (zip (vy_ast.args_args (vy_ast.fd_args node))
                   (FunctionDef_defaults (vy_ast.fd_args node)
                      include_defaults))
              argument_step [];
          return_type ← FunctionDef_return_type (vy_ast.fd_returns node);
          mret (ContractFunctionType__init__
                  (vy_ast.fd_name node) arguments
                  (FunctionDef_arg_count (vy_ast.fd_args node)) return_type
                  v NONPAYABLE (kw_nonreentrant kwargs)))).
Proof.
  intros Hloop.
  destruct (decorators_never_set _ _ _ _ Hloop) as [Hv Hm].
  split; [done|]. split; [done|]. split.
  - intros Hnone. unfold from_FunctionDef.
    rewrite (bind_Ok _ _ _ Hloop), Hnone. simpl. by rewrite app_nil_r.
  - intros v Hsome Hnone. unfold from_FunctionDef.
    rewrite (bind_Ok _ _ _ Hloop), Hsome, Hnone. cbn [outcome].
    rewrite M_left_id.
    change (lift (from_raw StateMutability "nonpayable"))
      with (mret (M := M) NONPAYABLE).
    by rewrite M_left_id.
Qed.

(** [@payable def foo()]: no visibility. *)
Lemma from_FunctionDef_visibility_required_witness :
  from_FunctionDef demo.foo_without_visibility None None true
  = mkM [] (Raise (Exn FunctionDeclarationException
                     [Lit "Visibility must be set to one of ";
                      FStr "public or private"])).
Proof.
  destruct (from_FunctionDef_visibility_required
              demo.foo_without_visibility None None true
              (set_state_mutability PAYABLE (initial_kwargs None None)))
    as (_ & _ & Hraise & _).
  - vm_compute; reflexivity.
  - apply Hraise. reflexivity.
Defined.

(** ** Construction from an ABI record *)

Section from_abi_facts.
Context `{Collaborators}.

Lemma getitem_Ok {A} (key : string) (field : option A) (a : A) :
  outcome (lift (getitem key field)) = Ok a ↔ field = Some a.
Proof. destruct field; simpl; naive_solver. Qed.

Lemma abi_input_step_Ok (arguments arguments' : OrderedDict typedef)
    (item : abi_item) :
  outcome (abi_input_step arguments item) = Ok arguments' ↔
  ∃ t s, ext_get_type_from_abi item CALLDATA (Some true) = Ok t
         ∧ item_name item = Some s
         ∧ arguments' = od_set s t arguments.
Proof.
  unfold abi_input_step. rewrite bind_outcome_Ok.
  setoid_rewrite bind_outcome_Ok. setoid_rewrite getitem_Ok. simpl.
  naive_solver.
Qed.

Lemma abi_output_step_Ok (types types' : list typedef) (i : abi_item) :
  outcome (abi_output_step types i) = Ok types' ↔
  ∃ t, ext_get_type_from_abi i CALLDATA (Some true) = Ok t
       ∧ types' = types ++ [t].
Proof. unfold abi_output_step. rewrite bind_outcome_Ok. simpl. naive_solver. Qed.

(** The tuple built from the outputs holds the type of each, in order. *)
Lemma abi_output_loop_Ok (outputs : list abi_item) (types : list typedef) :
  outcome (for_each outputs abi_output_step []) = Ok types →
  Forall2 (λ o t, ext_get_type_from_abi o CALLDATA (Some true) = Ok t)
          outputs types.
Proof.
  apply (for_each_Ok_ind (λ done ts,
    Forall2 (λ o t, ext_get_type_from_abi o CALLDATA (Some true) = Ok t)
            done ts)); [constructor|].
  intros done o ts ts' Hts (t & Ht & ->)%abi_output_step_Ok.
  apply Forall2_app; [done|]. by repeat constructor.
Qed.

(** What a successful construction went through. *)
Lemma from_abi_Ok (abi : abi_dict) (ft : ContractFunctionType) :
  outcome (from_abi abi) = Ok ft →
  ∃ inputs outputs name arguments return_type state_mutability,
    abi_inputs abi = Some inputs
    ∧ abi_outputs abi = Some outputs
    ∧ abi_name abi = Some name
    ∧ outcome (for_each inputs abi_input_step []) = Ok arguments
    ∧ outcome (abi_return_type outputs) = Ok return_type
    ∧ StateMutability_from_abi abi = Ok state_mutability
    ∧ ft = ContractFunctionType__init__
             name arguments (ArgExact (od_len arguments)) return_type
             PUBLIC state_mutability None.
Proof.
  unfold from_abi.
  intros (inputs & Hin%getitem_Ok & Hrest)%bind_outcome_Ok.
  apply bind_outcome_Ok in Hrest as (arguments & Hargs & Hrest).
  apply bind_outcome_Ok in Hrest as (outputs & Hout%getitem_Ok & Hrest).
  apply bind_outcome_Ok in Hrest as (return_type & Hret & Hrest).
  apply bind_outcome_Ok in Hrest as (name & Hname%getitem_Ok & Hrest).
  apply bind_outcome_Ok in Hrest as (m & Hm & [= <-]).
  by exists inputs, outputs, name, arguments, return_type, m.
Qed.

(** The keys of the mapping are the names met, each once. *)
Lemma abi_input_loop_keys (inputs : list abi_item)
    (arguments : OrderedDict typedef) :
  outcome (for_each inputs abi_input_step []) = Ok arguments →
  item_name <$> inputs = Some <$> omap item_name inputs
  ∧ NoDup (od_keys arguments)
  ∧ ∀ s, s ∈ od_keys arguments ↔ s ∈ omap item_name inputs.
Proof.
  apply (for_each_Ok_ind (λ done d,
    item_name <$> done = Some <$> omap item_name done
    ∧ NoDup (od_keys d)
    ∧ ∀ s, s ∈ od_keys d ↔ s ∈ omap item_name done)).
  { split; [done|]. split; [constructor|]. done. }
  intros done item d d' (Hnames & Hnodup & Hkeys)
    (t & s & _ & Hs & ->)%abi_input_step_Ok.
  rewrite omap_app, !fmap_app, Hnames. simpl. rewrite Hs. simpl.
  split; [done|]. split; [by apply od_set_NoDup|].
  intros s'. rewrite od_keys_set_elem, elem_of_app, list_elem_of_singleton.
  rewrite Hkeys. naive_solver.
Qed.

(** Entries under other names leave the binding of a name as it is. *)
Lemma abi_input_loop_other_names (inputs : list abi_item)
    (d d' : OrderedDict typedef) (s : string) :
  outcome (for_each inputs abi_input_step d) = Ok d' →
  (∀ item, item ∈ inputs → item_name item ≠ Some s) →
  od_get s d' = od_get s d.
Proof.
  revert d. induction inputs as [|item inputs IH]; intros d.
  - by intros [= <-].
  - rewrite for_each_cons.
    intros (d1 & (t & s' & _ & Hs' & ->)%abi_input_step_Ok & Hrest)%bind_outcome_Ok Hother.
    rewrite (IH _ Hrest) by (intros; apply Hother; by right).
    rewrite od_get_set. case_decide as Heq; [|done]. subst s'.
    destruct (Hother item); [by left|done].
Qed.

Lemma abi_return_type_Ok (outputs : list abi_item)
    (return_type : option typedef) :
  outcome (abi_return_type outputs) = Ok return_type →
  match outputs with
  | [] => return_type = None
  | [o] =>
      ∃ t, ext_get_type_from_abi o CALLDATA (Some true) = Ok t
           ∧ return_type = Some t
  | _ =>
      ∃ ts,
        Forall2 (λ o t, ext_get_type_from_abi o CALLDATA (Some true) = Ok t)
                outputs ts
        ∧ return_type = Some (TupleDefinition ts)
  end.
Proof.
  unfold abi_return_type. destruct outputs as [|o [|o' outputs]].
  - by intros [= <-].
  - intros (t & Ht & [= <-])%bind_outcome_Ok. by exists t.
  - intros (ts & Hts%abi_output_loop_Ok & [= <-])%bind_outcome_Ok.
    by exists ts.
Qed.

End from_abi_facts.

(** C6: a function type constructed by [from_abi] is public, has an exact
    arity (the size of its arguments mapping), no keyword keys and no
    reentrancy lock; its return type is [None] for a record with no output,
    the resolved type of the output when there is one, and the tuple of the
    resolved types of the outputs, in order, when there are more. *)
Theorem from_abi_shape `{Collaborators} (abi : abi_dict)
    (ft : ContractFunctionType) :
  outcome (from_abi abi) = Ok ft →
  visibility ft = PUBLIC
  ∧ arg_count ft = ArgExact (od_len (arguments ft))
  ∧ kwarg_keys ft = []
  ∧ nonreentrant ft = None
  ∧ ∃ outputs,
      abi_outputs abi = Some outputs
      ∧ match outputs with
        | [] => return_type ft = None
        | [o] =>
            ∃ t, ext_get_type_from_abi o CALLDATA (Some true) = Ok t
                 ∧ return_type ft = Some t
        | _ =>
            ∃ ts,
              Forall2
                (λ o t, ext_get_type_from_abi o CALLDATA (Some true) = Ok t)
                outputs ts
              ∧ return_type ft = Some (TupleDefinition ts)
        end.
Proof.
  intros (inputs & outputs & name & arguments & return_type & m
          & _ & Hout & _ & _ & Hret & _ & ->)%from_abi_Ok.
  repeat split; try done. exists outputs. split; [done|].
  by apply abi_return_type_Ok.
Qed.

(** An ABI record with two outputs. *)
Lemma from_abi_shape_witness :
  ∃ ft,
    outcome (from_abi demo.abi_duplicate_names) = Ok ft
    ∧ visibility ft = PUBLIC
    ∧ arg_count ft = ArgExact 2
    ∧ nonreentrant ft = None
    ∧ return_type ft
      = Some (demo.TupleOf [demo.Base "bool"; demo.Base "bool"]).
Proof.
  assert (∃ ft, outcome (from_abi demo.abi_duplicate_names) = Ok ft)
    as [ft Hok] by (eexists; vm_compute; reflexivity).
  exists ft. split; [exact Hok|].
  destruct (from_abi_shape demo.abi_duplicate_names ft Hok)
    as (Hv & Hc & _ & Hl & outputs & Hout & Hret).
  split; [exact Hv|].
  vm_compute in Hok. injection Hok as <-.
  split; [reflexivity|]. split; reflexivity.
Defined.

(** C10: [from_abi] accepts inputs that repeat a name. The keys of the
    arguments mapping are then the distinct input names, the entry that
    comes last under a name gives the type bound to it, and the exact arity
    is the number of distinct names, not the number of entries. *)
Theorem from_abi_duplicate_names `{Collaborators} (abi : abi_dict)
    (ft : ContractFunctionType) (inputs : list abi_item) :
  abi_inputs abi = Some inputs →
  outcome (from_abi abi) = Ok ft →
  let names := omap item_name inputs in
  length names = length inputs
  ∧ NoDup (od_keys (arguments ft))
  ∧ (∀ s, s ∈ od_keys (arguments ft) ↔ s ∈ names)
  ∧ arg_count ft = ArgExact (Z.of_nat (length (remove_dups names)))
  ∧ (∀ pre item post s,
        inputs = pre ++ item :: post →
        item_name item = Some s →
        (∀ later, later ∈ post → item_name later ≠ Some s) →
        ∃ t, ext_get_type_from_abi item CALLDATA (Some true) = Ok t
             ∧ od_get s (arguments ft) = Some t).
Proof.
  intros Hin (inputs' & outputs & name & arguments & return_type & m
              & Hin' & _ & _ & Hloop & _ & _ & ->)%from_abi_Ok names.
  assert (inputs' = inputs) as -> by congruence.
  destruct (abi_input_loop_keys _ _ Hloop) as (Hnames & Hnodup & Hkeys).
  simpl.
  split; [|split; [done|split; [done|split]]].
  - apply (f_equal length) in Hnames. rewrite !length_fmap in Hnames.
    by symmetry.
  - do 2 f_equal. rewrite od_len_keys. f_equal.
    apply Permutation_length, NoDup_Permutation;
      [done|apply NoDup_remove_dups|].
    intros s. by rewrite Hkeys, elem_of_remove_dups.
  - intros pre item post s -> Hs Hlater.
    apply for_each_app_Ok in Hloop as (d1 & _ & Hloop).
    rewrite for_each_cons in Hloop.
    apply bind_outcome_Ok in Hloop
      as (d2 & (t & s' & Ht & Hs' & ->)%abi_input_step_Ok & Hpost).
    assert (s' = s) as -> by congruence.
    exists t. split; [done|].
    rewrite (abi_input_loop_other_names _ _ _ _ Hpost Hlater).
    rewrite od_get_set. by case_decide.
Qed.

(** Inputs [a], [a], [b]: two arguments, [a] typed by its second entry. *)
Lemma from_abi_duplicate_names_witness :
  ∃ ft,
    outcome (from_abi demo.abi_duplicate_names) = Ok ft
    ∧ od_keys (arguments ft) = ["a"; "b"]
    ∧ arg_count ft = ArgExact 2
    ∧ od_get "a" (arguments ft) = Some (demo.Base "address").
Proof.
  assert (∃ ft, outcome (from_abi demo.abi_duplicate_names) = Ok ft)
    as [ft Hok] by (eexists; vm_compute; reflexivity).
  exists ft. split; [exact Hok|].
  destruct (from_abi_duplicate_names demo.abi_duplicate_names ft _
              eq_refl Hok) as (_ & _ & _ & Hc & Hlast).
  split; [by vm_compute in Hok; injection Hok as <-|].
  split; [exact Hc|].
  destruct (Hlast [ {| item_name := Some "a"; item_type := "uint256" |} ]
                  {| item_name := Some "a"; item_type := "address" |}
                  [ {| item_name := Some "b"; item_type := "bool" |} ]
                  "a" eq_refl eq_refl) as (t & Ht & Hget).
  - by intros later ->%list_elem_of_singleton.
  - vm_compute in Ht. injection Ht as <-. exact Hget.
Defined.

(** ** The accessor of a public variable *)

Section from_AnnAssign_facts.
Context `{Collaborators}.

Lemma accessor_arg_name_inj : Inj (=) (=) accessor_arg_name.
Proof.
  intros i j Hij. unfold accessor_arg_name in Hij. simpl in Hij.
  injection Hij as Hij. by apply (inj pretty).
Qed.

(** The loop that names the arguments raises nothing and issues the names
    [arg0], [arg1], ... in order. *)
Lemma accessor_loop (items done : list typedef) :
  for_each items accessor_step
    (zip (accessor_arg_name <$> seq 0 (length done)) done)
  = mret (zip (accessor_arg_name <$> seq 0 (length (done ++ items)))
              (done ++ items)).
Proof.
  revert done. induction items as [|item items IH]; intros done.
  - by rewrite app_nil_r.
  - rewrite for_each_cons. etransitivity; [apply M_left_id|].
    replace (done ++ item :: items) with ((done ++ [item]) ++ items)
      by (by rewrite <- app_assoc).
    rewrite <- IH. f_equal.
    assert (length (zip (accessor_arg_name <$> seq 0 (length done)) done)
            = length done) as Hlen.
    { rewrite length_zip_with, length_fmap, length_seq. lia. }
    rewrite Hlen. fold (accessor_arg_name (length done)).
    rewrite od_set_fresh.
    + rewrite length_app. simpl. rewrite Nat.add_1_r, seq_S, fmap_app.
      rewrite zip_with_app by (by rewrite length_fmap, length_seq).
      done.
    + unfold od_keys. rewrite fst_zip
        by (rewrite length_fmap, length_seq; lia).
      intros (i & Hi%accessor_arg_name_inj & Hin)%list_elem_of_fmap.
      subst i. apply elem_of_seq in Hin. lia.
Qed.

Lemma accessor_loop_all (items : list typedef) :
  for_each items accessor_step [] = mret (zip (accessor_arg_name <$> seq 0 (length items)) items).
Proof. exact (accessor_loop items []). Qed.

End from_AnnAssign_facts.

(** C7: for a public variable declared as [target: public(annotation)] whose
    type reports n argument types and a return type in [get_signature()],
    [from_AnnAssign] constructs a function type whose arguments are named
    [arg0], ..., [arg(n-1)], in order, and typed by the reported argument
    types, with exact arity n, public visibility, nonpayable mutability, no
    reentrancy lock, the reported return type and the variable's name. *)
Theorem from_AnnAssign_accessor `{Collaborators} (node : vy_ast.AnnAssign)
    (id : string) (c : vy_ast.call) (annotation : vy_ast.expr)
    (rest : list vy_ast.expr) (type_ : typedef)
    (argument_types : list typedef) (return_type' : option typedef) :
  vy_ast.aa_target node = vy_ast.Name id →
  vy_ast.aa_annotation node = vy_ast.Call c →
  vy_ast.args c = annotation :: rest →
  ext_get_type_from_annotation annotation STORAGE None = Ok type_ →
  ext_get_signature type_ = Ok (argument_types, return_type') →
  ∃ ft,
    outcome (from_AnnAssign node) = Ok ft
    ∧ od_keys (arguments ft)
      = (λ i, "arg" +:+ pretty i) <$> seq 0 (length argument_types)
    ∧ od_values (arguments ft) = argument_types
    ∧ arg_count ft = ArgExact (Z.of_nat (length argument_types))
    ∧ kwarg_keys ft = []
    ∧ visibility ft = PUBLIC
    ∧ mutability ft = NONPAYABLE
    ∧ nonreentrant ft = None
    ∧ return_type ft = return_type'
    ∧ name ft = id.
Proof.
  intros Htarget Hann Hargs Htype Hsig.
  eexists. split.
  - unfold from_AnnAssign. rewrite Hann, Hargs, M_left_id.
    apply bind_outcome_Ok. exists type_. split; [exact Htype|].
    apply bind_outcome_Ok. exists (argument_types, return_type').
    split; [exact Hsig|].
    cbv beta iota. rewrite accessor_loop_all, M_left_id.
    rewrite Htarget. simpl. reflexivity.
  - simpl. unfold od_keys, od_values.
    rewrite fst_zip, snd_zip by (rewrite length_fmap, length_seq; lia).
    done.
Qed.

(** The accessor of a mapping of mappings takes [arg0] and [arg1]. *)
Lemma from_AnnAssign_accessor_witness :
  ∃ ft,
    outcome (from_AnnAssign demo.allowance) = Ok ft
    ∧ od_keys (arguments ft) = ["arg0"; "arg1"]
    ∧ arg_count ft = ArgExact 2
    ∧ visibility ft = PUBLIC
    ∧ mutability ft = NONPAYABLE
    ∧ nonreentrant ft = None
    ∧ name ft = "allowance".
Proof.
  destruct (from_AnnAssign_accessor (H := demo.compiler)
              demo.allowance "allowance"
              (vy_ast.mkCall (vy_ast.Name "public")
                 [demo.hashmap (vy_ast.Name "address")
                    (demo.hashmap (vy_ast.Name "address")
                       (vy_ast.Name "uint256"))] [])
              (demo.hashmap (vy_ast.Name "address")
                 (demo.hashmap (vy_ast.Name "address") (vy_ast.Name "uint256")))
              []
              (demo.Mapping (demo.Base "address")
                 (demo.Mapping (demo.Base "address") (demo.Base "uint256")))
              [demo.Base "address"; demo.Base "address"]
              (Some (demo.Base "uint256")))
    as (ft & Hok & Hkeys & _ & Hc & _ & Hv & Hm & Hl & _ & Hname);
    try reflexivity.
  exists ft. split; [exact Hok|]. split; [exact Hkeys|].
  split; [exact Hc|]. split; [exact Hv|]. split; [exact Hm|].
  split; [exact Hl|exact Hname].
Defined.

(** ** Call sites *)

Section fetch_call_return_facts.
Context `{Collaborators}.

Lemma keyword_step_external (u : unit) (kwarg : vy_ast.keyword) :
  keyword_step u kwarg = external (keyword_event kwarg) (keyword_result kwarg).
Proof.
  unfold keyword_step, keyword_event, keyword_result.
  by case_bool_decide.
Qed.

(** A call that is accepted: what was checked, in order, and that every
    check passed. *)
Lemma fetch_call_return_Ok (self : ContractFunctionType) (node : vy_ast.call)
    (rt : option typedef) :
  outcome (fetch_call_return self node) = Ok rt →
  rt = return_type self
  ∧ log (fetch_call_return self node)
    = call_validate_call_args node (arg_count self)
        (accepted_keywords self node)
      :: (positional_event
            <$> zip (vy_ast.args node) (od_values (arguments self)))
      ++ (keyword_event <$> vy_ast.keywords node)
  ∧ (∀ kwarg, kwarg ∈ vy_ast.keywords node → keyword_result kwarg = Ok ()).
Proof.
  unfold fetch_call_return.
  destruct (_ && _); [done|].
  fold (accepted_keywords self node).
  rewrite (for_each_ext _ (λ _ p, external (positional_event p)
             (ext_validate_expected_type (PyNode p.1) (PyType p.2))))
    by (by intros ? []).
  rewrite (for_each_ext keyword_step
             (λ _ k, external (keyword_event k) (keyword_result k)))
    by apply keyword_step_external.
  intros Hok.
  pose proof Hok as (u1 & Hcall & Hrest)%bind_outcome_Ok.
  pose proof Hrest as (u2 & Hpos & Hrest')%bind_outcome_Ok.
  pose proof Hrest' as (u3 & Hkw & [= <-])%bind_outcome_Ok.
  destruct u1, u2, u3.
  split; [done|]. split.
  - rewrite (bind_log_Ok _ _ _ Hcall), (bind_log_Ok _ _ _ Hpos),
      (bind_log_Ok _ _ _ Hkw).
    rewrite (for_each_external_log _ _ _ Hpos),
      (for_each_external_log _ _ _ Hkw).
    simpl. by rewrite app_nil_r.
  - by apply (for_each_external_Ok keyword_event).
Qed.

(** A keyword other than [gas] and [value] is checked by a call of
    [validate_expected_type] on the keyword's name and the expression given
    for it: the type declared for the parameter of that name is not
    looked up. *)
Lemma fetch_call_return_keyword (self : ContractFunctionType)
    (node : vy_ast.call) (rt : option typedef) (kwarg : vy_ast.keyword) :
  outcome (fetch_call_return self node) = Ok rt →
  kwarg ∈ vy_ast.keywords node →
  vy_ast.kw_arg kwarg ∉ ["gas"; "value"] →
  call_validate_expected_type
    (PyStr (vy_ast.kw_arg kwarg)) (PyNode (vy_ast.kw_value kwarg))
  ∈ log (fetch_call_return self node)
  ∧ ext_validate_expected_type
      (PyStr (vy_ast.kw_arg kwarg)) (PyNode (vy_ast.kw_value kwarg)) = Ok ().
Proof.
  intros (_ & -> & Hall)%fetch_call_return_Ok Hin Hname.
  specialize (Hall _ Hin). unfold keyword_result in Hall.
  rewrite bool_decide_eq_false_2 in Hall by done. split; [|done].
  right. apply elem_of_app. right. apply list_elem_of_fmap.
  exists kwarg. split; [|done]. unfold keyword_event.
  by rewrite bool_decide_eq_false_2.
Qed.

End fetch_call_return_facts.

(** C4: a call through [self] of a public function raises the call
    violation. For a call that is not through [self], the keyword set handed
    to [validate_call_args] is the function's keyword keys followed by [gas]
    and [value], and when the call is accepted every [gas=] or [value=]
    keyword was validated, successfully, against [Uint256Definition()]. *)
Theorem fetch_call_return_self_and_external `{Collaborators}
    (self : ContractFunctionType) (node : vy_ast.call) :
  (vy_ast.get_func_value_id node = Some "self" →
   visibility self = PUBLIC →
   fetch_call_return self node
   = mkM [] (Raise (Exn CallViolation
                      [Lit "Cannnot call public functions via 'self'"])))
  ∧ (vy_ast.get_func_value_id node ≠ Some "self" →
     (∃ rest,
         log (fetch_call_return self node)
         = call_validate_call_args node (arg_count self)
             (kwarg_keys self ++ ["gas"; "value"]) :: rest)
     ∧ ∀ rt kwarg,
         outcome (fetch_call_return self node) = Ok rt →
         kwarg ∈ vy_ast.keywords node →
         vy_ast.kw_arg kwarg ∈ ["gas"; "value"] →
         call_validate_expected_type
           (PyNode (vy_ast.kw_value kwarg)) (PyType Uint256Definition)
         ∈ log (fetch_call_return self node)
         ∧ ext_validate_expected_type
             (PyNode (vy_ast.kw_value kwarg)) (PyType Uint256Definition)
           = Ok ()).
Proof.
  split.
  - intros Hself Hpub. unfold fetch_call_return.
    rewrite (bool_decide_eq_true_2 (_ = Some "self")) by done.
    by rewrite (bool_decide_eq_true_2 (visibility self = PUBLIC)).
  - intros Hself. split.
    + unfold fetch_call_return.
      rewrite (bool_decide_eq_false_2 (_ = Some "self")) by done.
      rewrite (bool_decide_eq_true_2 (_ ≠ Some "self")) by done.
      cbn [andb]. unfold validate_call_args, external.
      unfold mbind at 1, M_bind. cbn [outcome log].
      destruct (ext_validate_call_args _ _ _); simpl; eauto.
    + intros rt kwarg (_ & -> & Hall)%fetch_call_return_Ok Hin Hname.
      specialize (Hall _ Hin). unfold keyword_result in Hall.
      rewrite bool_decide_eq_true_2 in Hall by done. split; [|done].
      right. apply elem_of_app. right. apply list_elem_of_fmap.
      exists kwarg. split; [|done]. unfold keyword_event.
      by rewrite bool_decide_eq_true_2.
Qed.

(** [self.transfer(1)] on a public function, and [token.transfer(1, gas=5)]. *)
Lemma fetch_call_return_self_and_external_witness :
  fetch_call_return demo.transfer_public_type demo.call_self_transfer
  = mkM [] (Raise (Exn CallViolation
                     [Lit "Cannnot call public functions via 'self'"]))
  ∧ outcome (fetch_call_return demo.transfer_public_type
               demo.call_token_transfer_gas) = Ok None
  ∧ call_validate_expected_type
      (PyNode (vy_ast.Int 5)) (PyType Uint256Definition)
    ∈ log (fetch_call_return demo.transfer_public_type
             demo.call_token_transfer_gas).
Proof.
  split; [|split].
  - apply (fetch_call_return_self_and_external
             demo.transfer_public_type demo.call_self_transfer);
      reflexivity.
  - vm_compute; reflexivity.
  - destruct (fetch_call_return_self_and_external
                demo.transfer_public_type demo.call_token_transfer_gas)
      as [_ Hext].
    destruct Hext as [_ Hkw]; [discriminate|].
    apply (Hkw None (vy_ast.mkKeyword "gas" (vy_ast.Int 5))).
    + vm_compute; reflexivity.
    + apply list_elem_of_singleton. reflexivity.
    + left.
Defined.

(** C1, the code at a call with a keyword that is not [gas] or [value]:
    for [self.foo(1, b=2)] on the type of
    [@private def foo(a: uint256, b: uint256 = 3)], the positional argument
    is validated against the declared type of [a], and then
    [validate_expected_type] is called on the name ["b"] and the expression
    [2], not on the expression [2] and the declared type of [b]; here, the
    call is rejected. *)
Theorem fetch_call_return_keyword_validates_name :
  fetch_call_return demo.foo_private_type demo.call_self_foo_keyword
  = mkM
      [call_validate_call_args demo.call_self_foo_keyword (ArgRange 1 2) ["b"];
       call_validate_expected_type
         (PyNode (vy_ast.Int 1)) (PyType (demo.Base "uint256"));
       call_validate_expected_type (PyStr "b") (PyNode (vy_ast.Int 2))]
      (Raise (Exn TypeMismatch [Lit "Given reference has wrong type"]))
  ∧ od_get "b" (arguments demo.foo_private_type)
    = Some (demo.Base "uint256")
  ∧ ext_validate_expected_type
      (PyNode (vy_ast.Int 2)) (PyType (demo.Base "uint256")) = Ok ().
Proof. by vm_compute. Qed.

(** ** More runs of the module *)

(** [l[-2:]] *)
Example slice_from_negative : slice_from [1; 2; 3] (-2) = [2; 3].
Proof. reflexivity. Qed.

(** A declaration without defaults has an exact arity. *)
Example from_FunctionDef_exact :
  outcome (from_FunctionDef demo.foo_without_defaults None None true)
  = Ok (ContractFunctionType__init__ "foo"
          [("x", demo.Base "uint256"); ("y", demo.Base "uint256")]
          (ArgExact 2) None PUBLIC NONPAYABLE None).
Proof. by vm_compute. Qed.

(** [is_public=False] and [@public]: the flag's value is named. *)
Example from_FunctionDef_flag_then_decorator :
  from_FunctionDef demo.foo_without_defaults None (Some false) true
  = mkM [] (Raise (Exn FunctionDeclarationException
                     [Lit "Visibility is already set to: "; FVis PRIVATE])).
Proof. by vm_compute. Qed.

(** [@public @nonreentrant("a") @nonreentrant("b")] *)
Example from_FunctionDef_two_locks :
  from_FunctionDef
    (demo.declaration
       [vy_ast.Name "public"; demo.nonreentrant_decorator "a";
        demo.nonreentrant_decorator "b"] [] [])
    None None true
  = mkM [] (Raise (Exn StructureException
                     [Lit "nonreentrant decorator is already set with key: ";
                      FStr "a"])).
Proof. by vm_compute. Qed.

(** [@constant] is diagnosed and refused. *)
Example from_FunctionDef_constant_decorator :
  from_FunctionDef (demo.declaration [vy_ast.Name "constant"] [] [])
    None None true
  = mkM [warnings_warn
           "'@constant' decorator has been removed (see VIP2040). Use `@view` instead."
           "DeprecationWarning"]
        (Raise (Exn FunctionDeclarationException
                  [Lit "Unknown decorator: "; FStr "constant"])).
Proof. by vm_compute. Qed.

(** A parameter named [value] is refused. *)
Example from_FunctionDef_reserved_name :
  from_FunctionDef
    (demo.declaration [vy_ast.Name "public"] [demo.param "value" "uint256"] [])
    None None true
  = mkM [] (Raise (Exn ArgumentException
                     [Lit "Cannot use '"; FStr "value";
                      Lit "' as a variable name in a function input"])).
Proof. by vm_compute. Qed.

(** * Further properties: parameters and return type of from_FunctionDef *)

Section more_from_FunctionDef_facts.
Context `{Collaborators}.

(** A turn of the parameter loop raises nothing exactly when the name is
    not reserved, is new, shadows nothing, the annotation is there and
    resolves, and the default, if one is given, is constant and of the
    parameter's type. *)
Lemma argument_step_Ok_iff (arguments arguments' : OrderedDict typedef)
    (arg : vy_ast.arg) (value : option vy_ast.expr) :
  outcome (argument_step arguments (arg, value)) = Ok arguments' ↔
  (vy_ast.arg_arg arg ∉ ["gas"; "value"])
  ∧ (vy_ast.arg_arg arg ∉ od_keys arguments)
  ∧ (vy_ast.arg_arg arg ∉ ns_self_members get_namespace)
  ∧ (vy_ast.arg_arg arg ∉ ns_names get_namespace)
  ∧ ∃ annotation t,
      vy_ast.arg_annotation arg = Some annotation
      ∧ ext_get_type_from_annotation annotation CALLDATA (Some true) = Ok t
      ∧ (∀ v, value = Some v →
              ext_check_constant v = true
              ∧ ext_validate_expected_type (PyNode v) (PyType t) = Ok ())
      ∧ arguments' = od_set (vy_ast.arg_arg arg) t arguments.
Proof.
  unfold argument_step.
  case_bool_decide as Hres; [naive_solver|].
  destruct (od_contains _ _) eqn:Hc.
  { apply od_contains_true in Hc. naive_solver. }
  apply od_contains_false in Hc.
  case_bool_decide as Hself; [naive_solver|].
  case_bool_decide as Hns; [naive_solver|].
  destruct (vy_ast.arg_annotation arg) as [annotation|]; [|naive_solver].
  rewrite bind_outcome_Ok. setoid_rewrite bind_outcome_Ok.
  destruct value as [v|].
  - setoid_rewrite bind_outcome_Ok. setoid_rewrite bind_outcome_Ok.
    unfold get_type_from_annotation, check_constant, validate_expected_type.
    simpl. split.
    + intros (t & Ht & u & (b & Hb & u' & Hif & Hv) & Heq).
      destruct u, u'.
      assert (b = ext_check_constant v) as -> by congruence.
      assert (arguments' = od_set (vy_ast.arg_arg arg) t arguments) as ->
        by congruence.
      destruct (ext_check_constant v) eqn:Hconst; [|done].
      repeat split; try done. exists annotation, t.
      split; [done|]. split; [done|]. split; [|done].
      by intros ? [= <-].
    + intros (_ & _ & _ & _ & a & t & [= <-] & Ht & Hv & ->).
      destruct (Hv v eq_refl) as [Hconst Hval].
      exists t. split; [done|]. exists (). split; [|done].
      exists true. split; [by rewrite Hconst|].
      exists (). split; [done|]. done.
  - unfold get_type_from_annotation. simpl. split.
    + intros (t & Ht & [] & _ & [= <-]).
      repeat split; try done. exists annotation, t. naive_solver.
    + intros (_ & _ & _ & _ & a & t & [= <-] & Ht & Hv & ->).
      exists t. split; [done|]. by exists ().
Qed.

(** The parameter loop, when it raises nothing, has bound the parameters in
    order, each under its name to the type of its annotation, and every name
    and default has passed its checks. *)
Lemma argument_loop_Ok (items : list (vy_ast.arg * option vy_ast.expr))
    (arguments : OrderedDict typedef) :
  outcome (for_each items argument_step []) = Ok arguments →
  NoDup (od_keys arguments)
  ∧ Forall2
      (λ item kv,
         kv.1 = vy_ast.arg_arg item.1
         ∧ (vy_ast.arg_arg item.1 ∉ ["gas"; "value"])
         ∧ (vy_ast.arg_arg item.1 ∉ ns_self_members get_namespace)
         ∧ (vy_ast.arg_arg item.1 ∉ ns_names get_namespace)
         ∧ ∃ annotation,
             vy_ast.arg_annotation item.1 = Some annotation
             ∧ ext_get_type_from_annotation annotation CALLDATA (Some true)
               = Ok kv.2
             ∧ ∀ v, item.2 = Some v →
                    ext_check_constant v = true
                    ∧ ext_validate_expected_type (PyNode v) (PyType kv.2)
                      = Ok ())
      items arguments.
Proof.
  apply (for_each_Ok_ind (λ done d,
    NoDup (od_keys d)
    ∧ Forall2
        (λ item kv,
           kv.1 = vy_ast.arg_arg item.1
           ∧ (vy_ast.arg_arg item.1 ∉ ["gas"; "value"])
           ∧ (vy_ast.arg_arg item.1 ∉ ns_self_members get_namespace)
           ∧ (vy_ast.arg_arg item.1 ∉ ns_names get_namespace)
           ∧ ∃ annotation,
               vy_ast.arg_annotation item.1 = Some annotation
               ∧ ext_get_type_from_annotation annotation CALLDATA (Some true)
                 = Ok kv.2
               ∧ ∀ v, item.2 = Some v →
                      ext_check_constant v = true
                      ∧ ext_validate_expected_type (PyNode v) (PyType kv.2)
                        = Ok ())
        done d)).
  { split; constructor. }
  intros done [arg value] d d' [Hnodup Hall]
    (Hres & Hfresh & Hself & Hns & annotation & t & Hann & Ht & Hv & ->)
      %argument_step_Ok_iff.
  split; [by apply od_set_NoDup|].
  rewrite od_set_fresh by done. apply Forall2_app; [done|].
  constructor; [|constructor]. simpl. eauto 10.
Qed.

Lemma FunctionDef_defaults_covers (args : vy_ast.arguments)
    (include_defaults : bool) :
  (length (vy_ast.args_args args)
   ≤ length (FunctionDef_defaults args include_defaults))%nat.
Proof.
  unfold FunctionDef_defaults. destruct include_defaults.
  - rewrite length_app, length_replicate, length_fmap. lia.
  - rewrite length_replicate. lia.
Qed.

(** A return annotation that raises nothing is a type name, a call, a
    subscript or a tuple, and gives the resolved type or the tuple of the
    resolved types. *)
Lemma FunctionDef_return_type_Ok (returns : option vy_ast.expr)
    (return_type : option typedef) :
  outcome (FunctionDef_return_type returns) = Ok return_type →
  match returns with
  | None => return_type = None
  | Some (vy_ast.Tuple elements) =>
      ∃ ts,
        Forall2 (λ n t, ext_get_type_from_annotation n MEMORY None = Ok t)
                elements ts
        ∧ return_type = Some (TupleDefinition ts)
  | Some (vy_ast.Name _ as r)
  | Some (vy_ast.Call _ as r)
  | Some (vy_ast.Subscript _ _ as r) =>
      ∃ t, ext_get_type_from_annotation r MEMORY None = Ok t
           ∧ return_type = Some t
  | Some _ => False
  end.
Proof.
  unfold FunctionDef_return_type.
  destruct returns as [[id|v a|v sl|c|elements|elements|sv|z]|]; try done.
  - intros (t & Ht & [= <-])%bind_outcome_Ok. by exists t.
  - intros (t & Ht & [= <-])%bind_outcome_Ok. by exists t.
  - intros (t & Ht & [= <-])%bind_outcome_Ok. by exists t.
  - intros (ts & Hts & [= <-])%bind_outcome_Ok. exists ts. split; [|done].
    revert Hts. apply (for_each_Ok_ind (λ done ts,
      Forall2 (λ n t, ext_get_type_from_annotation n MEMORY None = Ok t)
              done ts)); [constructor|].
    intros done n ts1 ts2 Hdone (t & Ht & [= <-])%bind_outcome_Ok.
    apply Forall2_app; [done|]. by repeat constructor.
  - by intros [= <-].
Qed.

End more_from_FunctionDef_facts.

(** X1: in a function type constructed from a declaration the keys of the
    arguments mapping are the parameter names in declaration order; the
    names are pairwise distinct, none is [gas] or [value], and none is a
    member of [self] or a name of the namespace. *)
Theorem from_FunctionDef_parameter_names `{Collaborators}
    (node : vy_ast.FunctionDef) (is_immutable is_public : option bool)
    (include_defaults : bool) (ft : ContractFunctionType) :
  outcome (from_FunctionDef node is_immutable is_public include_defaults)
  = Ok ft →
  let names := vy_ast.arg_arg <$> vy_ast.args_args (vy_ast.fd_args node) in
  od_keys (arguments ft) = names
  ∧ NoDup names
  ∧ Forall (λ s, (s ∉ ["gas"; "value"])
                 ∧ (s ∉ ns_self_members get_namespace)
                 ∧ (s ∉ ns_names get_namespace)) names.
Proof.
  intros (kwargs & v & arguments & rt & _ & _ & Hargs & _ & ->)
    %from_FunctionDef_Ok names.
  apply argument_loop_Ok in Hargs as [Hnodup Hall]. simpl.
  assert (od_keys arguments = names) as Hkeys.
  { subst names. unfold od_keys.
    rewrite <- (fst_zip (vy_ast.args_args (vy_ast.fd_args node))
                  (FunctionDef_defaults (vy_ast.fd_args node)
                     include_defaults)) at 1
      by apply FunctionDef_defaults_covers.
    rewrite <- list_fmap_compose.
    apply list_eq_Forall2, Forall2_fmap, Forall2_flip.
    eapply Forall2_impl; [exact Hall|]. by intros [a d] [k t] (Hk & _). }
  split; [done|]. split; [by rewrite <- Hkeys|].
  rewrite <- Hkeys. unfold od_keys. apply Forall_fmap.
  eapply Forall2_Forall_r; [exact Hall|]. apply Forall_forall.
  intros [k t] _ [a d] (Hk & ? & ? & ? & _). simpl in *. by subst.
Qed.

(** [foo(x, y = 3, z = 4)] *)
Lemma from_FunctionDef_parameter_names_witness :
  od_keys (arguments samples.foo_with_defaults_type) = ["x"; "y"; "z"]
  ∧ NoDup ["x"; "y"; "z"].
Proof.
  edestruct (from_FunctionDef_parameter_names
               demo.foo_with_defaults None None true
               samples.foo_with_defaults_type) as (Hkeys & Hnodup & _);
    [reflexivity|].
  split; [exact Hkeys|exact Hnodup].
Defined.

(** X2: each parameter of the declaration carries an annotation, and the
    argument bound at its position is the type [get_type_from_annotation]
    resolves the annotation to, at [CALLDATA] and immutable. *)
Theorem from_FunctionDef_parameter_types `{Collaborators}
    (node : vy_ast.FunctionDef) (is_immutable is_public : option bool)
    (include_defaults : bool) (ft : ContractFunctionType) :
  outcome (from_FunctionDef node is_immutable is_public include_defaults)
  = Ok ft →
  Forall2
    (λ arg t,
       ∃ annotation,
         vy_ast.arg_annotation arg = Some annotation
         ∧ ext_get_type_from_annotation annotation CALLDATA (Some true)
           = Ok t)
    (vy_ast.args_args (vy_ast.fd_args node)) (od_values (arguments ft)).
Proof.
  intros (kwargs & v & arguments & rt & _ & _ & Hargs & _ & ->)
    %from_FunctionDef_Ok.
  apply argument_loop_Ok in Hargs as [_ Hall]. simpl.
  rewrite <- (fst_zip (vy_ast.args_args (vy_ast.fd_args node))
                (FunctionDef_defaults (vy_ast.fd_args node) include_defaults))
    by apply FunctionDef_defaults_covers.
  unfold od_values. apply Forall2_fmap.
  eapply Forall2_impl; [exact Hall|].
  intros [a d] [k t] (_ & _ & _ & _ & annotation & Hann & Ht & _).
  simpl in *. eauto.
Qed.

Lemma from_FunctionDef_parameter_types_witness :
  Forall2
    (λ arg t,
       ∃ annotation,
         vy_ast.arg_annotation arg = Some annotation
         ∧ ext_get_type_from_annotation annotation CALLDATA (Some true)
           = Ok t)
    (vy_ast.args_args (vy_ast.fd_args demo.foo_with_defaults))
    (od_values (arguments samples.foo_with_defaults_type)).
Proof.
  apply (from_FunctionDef_parameter_types
           demo.foo_with_defaults None None true).
  reflexivity.
Defined.

(** X3: with the defaults included, the j-th default expression belongs to
    the parameter at position n - k + j: it was found constant and was
    validated against the type bound to that parameter. *)
Theorem from_FunctionDef_defaults_checked `{Collaborators}
    (node : vy_ast.FunctionDef) (is_immutable is_public : option bool)
    (ft : ContractFunctionType) (j : nat) (d : vy_ast.expr) :
  let params := vy_ast.args_args (vy_ast.fd_args node) in
  let defaults := vy_ast.args_defaults (vy_ast.fd_args node) in
  (length defaults ≤ length params)%nat →
  outcome (from_FunctionDef node is_immutable is_public true) = Ok ft →
  defaults !! j = Some d →
  ∃ arg t,
    params !! (length params - length defaults + j)%nat = Some arg
    ∧ arguments ft !! (length params - length defaults + j)%nat
      = Some (vy_ast.arg_arg arg, t)
    ∧ ext_check_constant d = true
    ∧ ext_validate_expected_type (PyNode d) (PyType t) = Ok ().
Proof.
  intros params defaults Hk
    (kwargs & v & arguments & rt & _ & _ & Hargs & _ & ->)%from_FunctionDef_Ok
    Hd.
  apply argument_loop_Ok in Hargs as [_ Hall]. simpl.
  fold params defaults in Hall.
  set (i := (length params - length defaults + j)%nat).
  assert (j < length defaults)%nat as Hj by (by eapply lookup_lt_Some).
  destruct (lookup_lt_is_Some_2 params i) as [arg Harg];
    [subst i; lia|].
  assert (FunctionDef_defaults (vy_ast.fd_args node) true !! i
          = Some (Some d)) as Hdi.
  { unfold FunctionDef_defaults. fold params defaults.
    rewrite lookup_app_r by (rewrite length_replicate; subst i; lia).
    rewrite length_replicate, list_lookup_fmap.
    replace (i - Z.to_nat (Z.of_nat (length params)
                           - Z.of_nat (length defaults)))%nat
      with j by (subst i; lia).
    by rewrite Hd. }
  assert (zip params (FunctionDef_defaults (vy_ast.fd_args node) true) !! i
          = Some (arg, Some d)) as Hzip.
  { apply lookup_zip_with_Some. eauto. }
  destruct (Forall2_lookup_l _ _ _ _ _ Hall Hzip)
    as ([k t] & Hkt & Hk1 & _ & _ & _ & annotation & _ & _ & Hv).
  simpl in *. subst k. destruct (Hv d eq_refl) as [Hconst Hval].
  exists arg, t. by repeat split.
Qed.

(** The first default of [foo(x, y = 3, z = 4)] belongs to [y]. *)
Lemma from_FunctionDef_defaults_checked_witness :
  ∃ arg t,
    vy_ast.args_args (vy_ast.fd_args demo.foo_with_defaults) !! 1%nat
    = Some arg
    ∧ arguments samples.foo_with_defaults_type !! 1%nat
      = Some (vy_ast.arg_arg arg, t)
    ∧ ext_check_constant (vy_ast.Int 3) = true
    ∧ ext_validate_expected_type (PyNode (vy_ast.Int 3)) (PyType t) = Ok ().
Proof.
  apply (from_FunctionDef_defaults_checked
           demo.foo_with_defaults None None samples.foo_with_defaults_type
           0 (vy_ast.Int 3)).
  - simpl. lia.
  - reflexivity.
  - reflexivity.
Defined.

(** X4: the return type of a constructed type follows the shape of the
    return annotation: none gives [None]; a name, a call or a subscript
    gives the type it resolves to in [MEMORY]; a tuple gives the tuple of
    the types of its elements, in order. No type is constructed from an
    annotation of another shape. *)
Theorem from_FunctionDef_return_type `{Collaborators}
    (node : vy_ast.FunctionDef) (is_immutable is_public : option bool)
    (include_defaults : bool) (ft : ContractFunctionType) :
  outcome (from_FunctionDef node is_immutable is_public include_defaults)
  = Ok ft →
  match vy_ast.fd_returns node with
  | None => return_type ft = None
  | Some (vy_ast.Tuple elements) =>
      ∃ ts,
        Forall2 (λ n t, ext_get_type_from_annotation n MEMORY None = Ok t)
                elements ts
        ∧ return_type ft = Some (TupleDefinition ts)
  | Some (vy_ast.Name _ as r)
  | Some (vy_ast.Call _ as r)
  | Some (vy_ast.Subscript _ _ as r) =>
      ∃ t, ext_get_type_from_annotation r MEMORY None = Ok t
           ∧ return_type ft = Some t
  | Some _ => False
  end.
Proof.
  intros (kwargs & v & arguments & rt & _ & _ & _ & Hret & ->)
    %from_FunctionDef_Ok.
  by apply FunctionDef_return_type_Ok in Hret.
Qed.

Lemma from_FunctionDef_return_type_witness :
  ∃ ts,
    Forall2 (λ n t, ext_get_type_from_annotation n MEMORY None = Ok t)
            [vy_ast.Name "bool"; vy_ast.Name "address"] ts
    ∧ return_type samples.pair_type = Some (TupleDefinition ts).
Proof.
  apply (from_FunctionDef_return_type
           samples.pair_declaration None None true samples.pair_type).
  reflexivity.
Defined.

(** * Further properties: decorators of from_FunctionDef *)

Section more_decorator_facts.
Context `{Collaborators}.

Lemma count_snoc {A} (f : A → bool) (l : list A) (x : A) :
  count f (l ++ [x]) = (count f l + if f x then 1 else 0)%nat.
Proof.
  unfold count. rewrite filter_app, length_app. f_equal.
  rewrite filter_cons. destruct (f x); by case_decide.
Qed.

Lemma FunctionVisibility_value_inj : Inj (=) (=) (value (E := FunctionVisibility)).
Proof. by intros [] [] ?. Qed.

Lemma StateMutability_value_inj : Inj (=) (=) (value (E := StateMutability)).
Proof. by intros [] [] ?. Qed.

Lemma decorator_kind_visibility (v : FunctionVisibility) :
  is_visibility_decorator (vy_ast.Name (value v)) = true
  ∧ is_mutability_decorator (vy_ast.Name (value v)) = false
  ∧ is_call_decorator (vy_ast.Name (value v)) = false.
Proof. by destruct v. Qed.

Lemma decorator_kind_mutability (m : StateMutability) :
  is_visibility_decorator (vy_ast.Name (value m)) = false
  ∧ is_mutability_decorator (vy_ast.Name (value m)) = true
  ∧ is_call_decorator (vy_ast.Name (value m)) = false.
Proof. by destruct m. Qed.

(** What the flags and the decorators read so far have set is in [kwargs]. *)
Lemma decorators_recorded (is_immutable is_public : option bool)
    (decorators : list vy_ast.expr) (kwargs : kwargs_t) :
  outcome (for_each decorators decorator_step
             (initial_kwargs is_immutable is_public)) = Ok kwargs →
  (∀ v, kw_function_visibility (initial_kwargs is_immutable is_public) = Some v
        ∨ vy_ast.Name (value v) ∈ decorators →
        kw_function_visibility kwargs = Some v)
  ∧ (∀ m, kw_state_mutability (initial_kwargs is_immutable is_public) = Some m
          ∨ vy_ast.Name (value m) ∈ decorators →
          kw_state_mutability kwargs = Some m)
  ∧ (∀ c, vy_ast.Call c ∈ decorators →
          ∃ key, vy_ast.get_func_id c = Some "nonreentrant"
                 ∧ vy_ast.args c = [vy_ast.Str key]
                 ∧ kw_nonreentrant kwargs = Some key).
Proof.
  apply (for_each_Ok_ind (λ done kw,
    (∀ v, kw_function_visibility (initial_kwargs is_immutable is_public)
          = Some v
          ∨ vy_ast.Name (value v) ∈ done →
          kw_function_visibility kw = Some v)
    ∧ (∀ m, kw_state_mutability (initial_kwargs is_immutable is_public)
            = Some m
            ∨ vy_ast.Name (value m) ∈ done →
            kw_state_mutability kw = Some m)
    ∧ (∀ c, vy_ast.Call c ∈ done →
            ∃ key, vy_ast.get_func_id c = Some "nonreentrant"
                   ∧ vy_ast.args c = [vy_ast.Str key]
                   ∧ kw_nonreentrant kw = Some key))).
  { split; [|split].
    - intros v [?|?%elem_of_nil]; done.
    - intros m [?|?%elem_of_nil]; done.
    - by intros c ?%elem_of_nil. }
  intros done d kw kw' (Hv & Hm & Hl) Hstep.
  setoid_rewrite elem_of_app. setoid_rewrite list_elem_of_singleton.
  apply decorator_step_Ok in Hstep
    as [(v0 & -> & Hnone & ->)|[(m0 & -> & Hnone & ->)
       |(c0 & key0 & -> & Hid & Hargs & Hnone & ->)]];
    simpl.
  - split; [|split].
    + intros v [Hflag|[Hin|[= Heq]]].
      * by rewrite (Hv v) in Hnone by auto.
      * by rewrite (Hv v) in Hnone by auto.
      * by apply FunctionVisibility_value_inj in Heq as ->.
    + intros m [Hflag|[Hin|[= Heq]]]; [by apply Hm; auto..|].
      by destruct (visibility_tag_is_no_mutability_tag v0 m).
    + intros c [Hin|[=]]. by apply Hl.
  - split; [|split].
    + intros v [Hflag|[Hin|[= Heq]]]; [by apply Hv; auto..|].
      by destruct (visibility_tag_is_no_mutability_tag v m0).
    + intros m [Hflag|[Hin|[= Heq]]].
      * by rewrite (Hm m) in Hnone by auto.
      * by rewrite (Hm m) in Hnone by auto.
      * by apply StateMutability_value_inj in Heq as ->.
    + intros c [Hin|[=]]. by apply Hl.
  - split; [|split].
    + intros v [Hflag|[Hin|[=]]]; by apply Hv; auto.
    + intros m [Hflag|[Hin|[=]]]; by apply Hm; auto.
    + intros c [Hin|[= ->]].
      * destruct (Hl c Hin) as (key & _ & _ & Hkey). congruence.
      * by exists key0.
Qed.

(** After the decorators, [kwargs] holds exactly what the flags and the
    decorators set. *)
Lemma decorators_kwargs (is_immutable is_public : option bool)
    (decorators : list vy_ast.expr) (kwargs : kwargs_t) :
  outcome (for_each decorators decorator_step
             (initial_kwargs is_immutable is_public)) = Ok kwargs →
  (∀ v, kw_function_visibility kwargs = Some v
        ↔ kw_function_visibility (initial_kwargs is_immutable is_public)
          = Some v
          ∨ vy_ast.Name (value v) ∈ decorators)
  ∧ (∀ m, kw_state_mutability kwargs = Some m
          ↔ kw_state_mutability (initial_kwargs is_immutable is_public)
            = Some m
            ∨ vy_ast.Name (value m) ∈ decorators)
  ∧ (∀ key, kw_nonreentrant kwargs = Some key
            ↔ ∃ c, vy_ast.Call c ∈ decorators
                   ∧ vy_ast.args c = [vy_ast.Str key]).
Proof.
  intros Hloop.
  destruct (decorators_provenance _ _ _ _ Hloop) as (Pv & Pm & Pl).
  destruct (decorators_recorded _ _ _ _ Hloop) as (Rv & Rm & Rl).
  split; [|split].
  - intros v. split; [apply Pv|apply Rv].
  - intros m. split; [apply Pm|apply Rm].
  - intros key. split.
    + intros (c & Hin & _ & Hargs)%Pl. eauto.
    + intros (c & Hin & Hargs).
      destruct (Rl c Hin) as (key' & _ & Hargs' & Hkey). congruence.
Qed.

(** Every decorator read without an exception has one of the three
    accepted forms, and each key was set at most once. *)
Lemma decorators_counted (is_immutable is_public : option bool)
    (decorators : list vy_ast.expr) (kwargs : kwargs_t) :
  outcome (for_each decorators decorator_step
             (initial_kwargs is_immutable is_public)) = Ok kwargs →
  Forall (λ d,
            (∃ v : FunctionVisibility, d = vy_ast.Name (value v))
            ∨ (∃ m : StateMutability, d = vy_ast.Name (value m))
            ∨ (∃ c key, d = vy_ast.Call c
                        ∧ vy_ast.get_func_id c = Some "nonreentrant"
                        ∧ vy_ast.args c = [vy_ast.Str key]))
         decorators
  ∧ (count is_visibility_decorator decorators + set_count is_public
     = set_count (kw_function_visibility kwargs))%nat
  ∧ (count is_mutability_decorator decorators + set_count is_immutable
     = set_count (kw_state_mutability kwargs))%nat
  ∧ count is_call_decorator decorators
    = set_count (kw_nonreentrant kwargs).
Proof.
  apply (for_each_Ok_ind (λ done kw,
    Forall (λ d,
              (∃ v : FunctionVisibility, d = vy_ast.Name (value v))
              ∨ (∃ m : StateMutability, d = vy_ast.Name (value m))
              ∨ (∃ c key, d = vy_ast.Call c
                          ∧ vy_ast.get_func_id c = Some "nonreentrant"
                          ∧ vy_ast.args c = [vy_ast.Str key]))
           done
    ∧ (count is_visibility_decorator done + set_count is_public
       = set_count (kw_function_visibility kw))%nat
    ∧ (count is_mutability_decorator done + set_count is_immutable
       = set_count (kw_state_mutability kw))%nat
    ∧ count is_call_decorator done = set_count (kw_nonreentrant kw))).
  { split; [constructor|]. by destruct is_public, is_immutable. }
  intros done d kw kw' (Hall & Hv & Hm & Hl) Hstep.
  rewrite !count_snoc.
  apply decorator_step_Ok in Hstep
    as [(v0 & -> & Hnone & ->)|[(m0 & -> & Hnone & ->)
       |(c0 & key0 & -> & Hid & Hargs & Hnone & ->)]].
  - split; [apply Forall_app; split; [done|];
             apply Forall_singleton; left; eauto|].
    destruct (decorator_kind_visibility v0) as (-> & -> & ->).
    rewrite Hnone in Hv. simpl in *. lia.
  - split; [apply Forall_app; split; [done|];
             apply Forall_singleton; right; left; eauto|].
    destruct (decorator_kind_mutability m0) as (-> & -> & ->).
    rewrite Hnone in Hm. simpl in *. lia.
  - split; [apply Forall_app; split; [done|];
             apply Forall_singleton; right; right; eauto 10|].
    rewrite Hnone in Hl. simpl in *. lia.
Qed.

Lemma option_eq_Some {A} (o o' : option A) :
  (∀ x, o = Some x ↔ o' = Some x) → o = o'.
Proof.
  intros Hiff. destruct o as [x|], o' as [y|]; try done.
  - by apply Hiff.
  - symmetry. by apply Hiff.
  - by apply Hiff.
Qed.

(** The order of the decorators does not matter to what they set. *)
Lemma decorators_kwargs_perm (is_immutable is_public : option bool)
    (decorators decorators' : list vy_ast.expr) (kwargs kwargs' : kwargs_t) :
  decorators' ≡ₚ decorators →
  outcome (for_each decorators decorator_step
             (initial_kwargs is_immutable is_public)) = Ok kwargs →
  outcome (for_each decorators' decorator_step
             (initial_kwargs is_immutable is_public)) = Ok kwargs' →
  kwargs' = kwargs.
Proof.
  intros Hperm (Hv & Hm & Hl)%decorators_kwargs
    (Hv' & Hm' & Hl')%decorators_kwargs.
  destruct kwargs as [m v l], kwargs' as [m' v' l']. simpl in *. f_equal.
  - apply option_eq_Some. intros x. rewrite Hm, Hm'.
    by setoid_rewrite Hperm.
  - apply option_eq_Some. intros x. rewrite Hv, Hv'.
    by setoid_rewrite Hperm.
  - apply option_eq_Some. intros x. rewrite Hl, Hl'.
    by setoid_rewrite Hperm.
Qed.

End more_decorator_facts.

(** X5: the visibility, the mutability and the reentrancy lock of a type
    constructed from a declaration are the ones the override flags or the
    decorators name: [is_public] gives public or private, [is_immutable]
    gives view or nonpayable, a decorator gives its tag, a mutability set
    by neither is nonpayable, and the lock is the key of the
    [nonreentrant] decorator when there is one. *)
Theorem from_FunctionDef_modifiers `{Collaborators}
    (node : vy_ast.FunctionDef) (is_immutable is_public : option bool)
    (include_defaults : bool) (ft : ContractFunctionType) :
  outcome (from_FunctionDef node is_immutable is_public include_defaults)
  = Ok ft →
  let decorators := vy_ast.fd_decorator_list node in
  (∀ v, visibility ft = v
        ↔ (is_public = Some true ∧ v = PUBLIC)
          ∨ (is_public = Some false ∧ v = PRIVATE)
          ∨ vy_ast.Name (value v) ∈ decorators)
  ∧ (∀ m, mutability ft = m
          ↔ (is_immutable = Some true ∧ m = VIEW)
            ∨ (is_immutable = Some false ∧ m = NONPAYABLE)
            ∨ vy_ast.Name (value m) ∈ decorators
            ∨ (is_immutable = None ∧ m = NONPAYABLE
               ∧ ∀ m' : StateMutability, vy_ast.Name (value m') ∉ decorators))
  ∧ (∀ key, nonreentrant ft = Some key
            ↔ ∃ c, vy_ast.Call c ∈ decorators
                   ∧ vy_ast.args c = [vy_ast.Str key]).
Proof.
  intros (kwargs & v0 & arguments & rt & Hloop & Hvis & _ & _ & ->)
    %from_FunctionDef_Ok decorators.
  destruct (decorators_kwargs _ _ _ _ Hloop) as (Kv & Km & Kl).
  destruct (decorators_never_set _ _ _ _ Hloop) as [_ Nm].
  fold decorators in Kv, Km, Kl, Nm. simpl.
  split; [|split; [|done]].
  - intros v. transitivity (kw_function_visibility kwargs = Some v).
    { rewrite Hvis. naive_solver. }
    rewrite Kv. destruct is_public as [[]|]; simpl; naive_solver.
  - intros m. destruct (kw_state_mutability kwargs) as [m1|] eqn:Hmut; simpl.
    + transitivity (Some m1 = Some m); [naive_solver|].
      rewrite Km. split.
      * destruct is_immutable as [[]|]; simpl; naive_solver.
      * intros [[-> ->]|[[-> ->]|[?|(Himm & -> & Hno)]]]; simpl; auto.
        discriminate (proj2 Nm (conj Himm Hno)).
    + destruct (proj1 Nm eq_refl) as [-> Hno]. split.
      * intros <-. auto 10.
      * intros [[? _]|[[? _]|[Hin|(_ & -> & _)]]]; try done.
        by destruct (Hno m).
Qed.

(** [@public @payable @nonreentrant("lock")] *)
Lemma from_FunctionDef_modifiers_witness :
  ∃ ft,
    outcome (from_FunctionDef samples.foo_locked None None true) = Ok ft
    ∧ visibility ft = PUBLIC
    ∧ mutability ft = PAYABLE
    ∧ nonreentrant ft = Some "lock".
Proof.
  eexists. split; [reflexivity|].
  edestruct (from_FunctionDef_modifiers samples.foo_locked None None true)
    as (Hv & Hm & Hl); [reflexivity|].
  split; [|split].
  - apply Hv. right. right. simpl. repeat constructor.
  - apply Hm. right. right. left. simpl. repeat constructor.
  - apply Hl.
    exists (vy_ast.mkCall (vy_ast.Name "nonreentrant") [vy_ast.Str "lock"] []).
    split; [|reflexivity]. simpl. repeat constructor.
Defined.

(** X6: when a type is constructed from a declaration, every decorator of
    the declaration is a visibility tag, a mutability tag or
    [nonreentrant] called on one string literal; the visibility was set
    exactly once, by [is_public] or by one decorator, the mutability at
    most once, and there is at most one call among the decorators. *)
Theorem from_FunctionDef_decorators_accepted `{Collaborators}
    (node : vy_ast.FunctionDef) (is_immutable is_public : option bool)
    (include_defaults : bool) (ft : ContractFunctionType) :
  outcome (from_FunctionDef node is_immutable is_public include_defaults)
  = Ok ft →
  let decorators := vy_ast.fd_decorator_list node in
  Forall (λ d,
            (∃ v : FunctionVisibility, d = vy_ast.Name (value v))
            ∨ (∃ m : StateMutability, d = vy_ast.Name (value m))
            ∨ (∃ c key, d = vy_ast.Call c
                        ∧ vy_ast.get_func_id c = Some "nonreentrant"
                        ∧ vy_ast.args c = [vy_ast.Str key]))
         decorators
  ∧ (count is_visibility_decorator decorators + set_count is_public = 1)%nat
  ∧ (count is_mutability_decorator decorators + set_count is_immutable ≤ 1)%nat
  ∧ (count is_call_decorator decorators ≤ 1)%nat.
Proof.
  intros (kwargs & v0 & arguments & rt & Hloop & Hvis & _ & _ & ->)
    %from_FunctionDef_Ok decorators.
  destruct (decorators_counted _ _ _ _ Hloop) as (Hall & Hv & Hm & Hl).
  fold decorators in Hall, Hv, Hm, Hl.
  split; [done|]. rewrite Hv, Hm, Hl, Hvis.
  destruct (kw_state_mutability kwargs), (kw_nonreentrant kwargs); simpl; lia.
Qed.

Lemma from_FunctionDef_decorators_accepted_witness :
  (count is_visibility_decorator (vy_ast.fd_decorator_list samples.foo_locked)
   = 1)%nat
  ∧ (count is_call_decorator (vy_ast.fd_decorator_list samples.foo_locked)
     ≤ 1)%nat.
Proof.
  edestruct (from_FunctionDef_decorators_accepted
               samples.foo_locked None None true) as (_ & Hv & _ & Hl);
    [reflexivity|].
  split; [|exact Hl]. cbn [set_count] in Hv. by rewrite Nat.add_0_r in Hv.
Defined.

(** X7: two declarations that differ only in the order of their
    decorators, when both are constructed, give the same function type. *)
Theorem from_FunctionDef_decorator_order `{Collaborators}
    (node node' : vy_ast.FunctionDef) (is_immutable is_public : option bool)
    (include_defaults : bool) (ft ft' : ContractFunctionType) :
  vy_ast.fd_decorator_list node' ≡ₚ vy_ast.fd_decorator_list node →
  vy_ast.fd_name node' = vy_ast.fd_name node →
  vy_ast.fd_args node' = vy_ast.fd_args node →
  vy_ast.fd_returns node' = vy_ast.fd_returns node →
  outcome (from_FunctionDef node is_immutable is_public include_defaults)
  = Ok ft →
  outcome (from_FunctionDef node' is_immutable is_public include_defaults)
  = Ok ft' →
  ft' = ft.
Proof.
  intros Hperm Hname Hargs Hret
    (kwargs & v & arguments & rt & Hloop & Hvis & Ha & Hr & ->)
      %from_FunctionDef_Ok
    (kwargs' & v' & arguments' & rt' & Hloop' & Hvis' & Ha' & Hr' & ->)
      %from_FunctionDef_Ok.
  rewrite (decorators_kwargs_perm _ _ _ _ _ _ Hperm Hloop Hloop') in *.
  rewrite Hname, Hargs, Hret in *.
  congruence.
Qed.

Lemma from_FunctionDef_decorator_order_witness :
  ∃ ft,
    outcome (from_FunctionDef samples.foo_locked None None true) = Ok ft
    ∧ outcome (from_FunctionDef samples.foo_locked_reordered None None true)
      = Ok ft.
Proof.
  eexists. split; [reflexivity|].
  edestruct (outcome (from_FunctionDef samples.foo_locked_reordered
                        None None true)) as [ft'|e] eqn:Hok';
    [|discriminate Hok'].
  f_equal.
  apply (from_FunctionDef_decorator_order
           samples.foo_locked samples.foo_locked_reordered None None true);
    try reflexivity; [|exact Hok'].
  simpl. apply Permutation_swap.
Defined.

(** * Further properties: fetch_call_return *)

Section more_fetch_call_return_facts.
Context `{Collaborators}.

Lemma for_each_external_Ok_iff {A} (ev : A → event) (r : A → result unit)
    (xs : list A) :
  outcome (for_each xs (λ _ x, external (ev x) (r x)) ()) = Ok ()
  ↔ ∀ x, x ∈ xs → r x = Ok ().
Proof.
  split; [apply for_each_external_Ok|].
  induction xs as [|x xs IH]; intros Hall; [done|].
  rewrite for_each_cons. apply bind_outcome_Ok. exists ().
  split; [apply Hall; left|]. apply IH. intros y Hy. apply Hall. by right.
Qed.

Lemma for_each_external_log_prefix {A} (ev : A → event) (r : A → result unit)
    (xs : list A) :
  log (for_each xs (λ _ x, external (ev x) (r x)) ()) `prefix_of` ev <$> xs.
Proof.
  induction xs as [|x xs IH]; [done|].
  rewrite for_each_cons. unfold mbind, M_bind. simpl.
  destruct (r x) as [[]|e]; simpl.
  - by apply prefix_cons.
  - apply prefix_cons, prefix_nil.
Qed.

(** [fetch_call_return] with its two loops written as one call each. *)
Lemma fetch_call_return_unfold (self : ContractFunctionType)
    (node : vy_ast.call) :
  ¬ (vy_ast.get_func_value_id node = Some "self" ∧ visibility self = PUBLIC) →
  fetch_call_return self node
  = (validate_call_args node (arg_count self) (accepted_keywords self node);;
     for_each (zip (vy_ast.args node) (od_values (arguments self)))
       (λ _ p, external (positional_event p)
                 (ext_validate_expected_type (PyNode p.1) (PyType p.2))) ();;
     for_each (vy_ast.keywords node)
       (λ _ k, external (keyword_event k) (keyword_result k)) ();;
     mret (return_type self)).
Proof.
  intros Hnot. unfold fetch_call_return.
  destruct (bool_decide _ && bool_decide _) eqn:Hcond.
  { apply andb_true_iff in Hcond as [?%bool_decide_eq_true ?%bool_decide_eq_true].
    by destruct Hnot. }
  fold (accepted_keywords self node).
  rewrite (for_each_ext _ (λ _ p, external (positional_event p)
             (ext_validate_expected_type (PyNode p.1) (PyType p.2))))
    by (by intros ? []).
  by rewrite (for_each_ext keyword_step
                (λ _ k, external (keyword_event k) (keyword_result k)))
    by apply keyword_step_external.
Qed.

End more_fetch_call_return_facts.

(** X8: the keyword keys [__init__] derives are always a suffix of the
    argument names, whatever [arg_count] is given: none for an exact count,
    and for a pair (min, max) with 0 <= min <= len(arguments) the names from
    position min on. *)
Theorem ContractFunctionType_kwarg_keys_suffix `{Collaborators}
    (name : string) (arguments : OrderedDict typedef)
    (arg_count : arg_count_t) (return_type : option typedef)
    (function_visibility : FunctionVisibility)
    (state_mutability : StateMutability) (nonreentrant : option string) :
  let ft := ContractFunctionType__init__ name arguments arg_count return_type
              function_visibility state_mutability nonreentrant in
  kwarg_keys ft `suffix_of` od_keys arguments
  ∧ match arg_count with
    | ArgExact _ => kwarg_keys ft = []
    | ArgRange lo _ =>
        0 ≤ lo ≤ od_len arguments →
        take (Z.to_nat lo) (od_keys arguments) ++ kwarg_keys ft
        = od_keys arguments
        ∧ Z.of_nat (length (kwarg_keys ft)) = od_len arguments - lo
    end.
Proof.
  simpl. destruct arg_count as [n|lo hi].
  - split; [apply suffix_nil|done].
  - split.
    + unfold slice_from. case_bool_decide; apply suffix_drop.
    + intros [Hlo Hhi]. unfold slice_from.
      rewrite bool_decide_eq_true_2 by done.
      rewrite take_drop, length_drop. split; [done|].
      rewrite od_len_keys in *. lia.
Qed.

(** X9: a call is accepted, and then gives the function's return type,
    exactly when it is not a call of a public function through [self], the
    shape check passes, every positional argument validates against the
    type declared at its position, and every keyword passes its check. *)
Theorem fetch_call_return_accepts `{Collaborators}
    (self : ContractFunctionType) (node : vy_ast.call)
    (rt : option typedef) :
  outcome (fetch_call_return self node) = Ok rt
  ↔ rt = return_type self
    ∧ ¬ (vy_ast.get_func_value_id node = Some "self"
         ∧ visibility self = PUBLIC)
    ∧ ext_validate_call_args node (arg_count self)
        (accepted_keywords self node) = Ok ()
    ∧ (∀ p, p ∈ zip (vy_ast.args node) (od_values (arguments self)) →
            ext_validate_expected_type (PyNode p.1) (PyType p.2) = Ok ())
    ∧ (∀ kwarg, kwarg ∈ vy_ast.keywords node → keyword_result kwarg = Ok ()).
Proof.
  destruct (decide (vy_ast.get_func_value_id node = Some "self"
                    ∧ visibility self = PUBLIC)) as [[Hself Hpub]|Hnot].
  { split; [|naive_solver]. unfold fetch_call_return.
    rewrite (bool_decide_eq_true_2 (_ = Some "self")) by done.
    by rewrite (bool_decide_eq_true_2 (visibility self = PUBLIC)). }
  rewrite fetch_call_return_unfold by done.
  rewrite bind_outcome_Ok. setoid_rewrite bind_outcome_Ok.
  setoid_rewrite bind_outcome_Ok. split.
  - intros ([] & Hcall & [] & Hpos & [] & Hkw & [= <-]).
    repeat split; try done.
    + by apply (for_each_external_Ok_iff positional_event).
    + by apply (for_each_external_Ok_iff keyword_event).
  - intros (-> & _ & Hcall & Hpos & Hkw).
    exists (). split; [done|]. exists (). split.
    { by apply (for_each_external_Ok_iff positional_event). }
    exists (). split; [|done].
    by apply (for_each_external_Ok_iff keyword_event).
Qed.

(** X10: the shape check comes first: when [validate_call_args] raises,
    [fetch_call_return] raises the same exception and no type was
    validated. *)
Theorem fetch_call_return_shape_first `{Collaborators}
    (self : ContractFunctionType) (node : vy_ast.call) (e : exn) :
  ¬ (vy_ast.get_func_value_id node = Some "self" ∧ visibility self = PUBLIC) →
  ext_validate_call_args node (arg_count self) (accepted_keywords self node)
  = Raise e →
  fetch_call_return self node
  = mkM [call_validate_call_args node (arg_count self)
           (accepted_keywords self node)]
        (Raise e).
Proof.
  intros Hnot Hcall. rewrite fetch_call_return_unfold by done.
  unfold validate_call_args, external. unfold mbind at 1, M_bind.
  cbn [outcome log]. by rewrite Hcall.
Qed.

(** [token.transfer(1, 2)] on a function of one parameter. *)
Lemma fetch_call_return_shape_first_witness :
  fetch_call_return demo.transfer_public_type samples.call_token_transfer_two
  = mkM [call_validate_call_args samples.call_token_transfer_two (ArgExact 1)
           ["gas"; "value"]]
        (Raise (Exn ArgumentException [Lit "Invalid argument count"])).
Proof.
  apply (fetch_call_return_shape_first
           demo.transfer_public_type samples.call_token_transfer_two).
  - intros [Hself _]. discriminate Hself.
  - reflexivity.
Defined.

(** X11: a call through [self] of a private function is checked against
    the function's own keyword keys only: [gas] and [value] are not added. *)
Theorem fetch_call_return_self_private `{Collaborators}
    (self : ContractFunctionType) (node : vy_ast.call) :
  vy_ast.get_func_value_id node = Some "self" →
  visibility self = PRIVATE →
  ∃ rest,
    log (fetch_call_return self node)
    = call_validate_call_args node (arg_count self) (kwarg_keys self) :: rest.
Proof.
  intros Hself Hpriv.
  rewrite fetch_call_return_unfold by (intros [_ ?]; congruence).
  unfold accepted_keywords.
  rewrite (bool_decide_eq_false_2 (_ ≠ Some "self")) by (by intros []).
  unfold validate_call_args, external. unfold mbind at 1, M_bind.
  cbn [outcome log]. destruct (ext_validate_call_args _ _ _); simpl; eauto.
Qed.

(** [self.foo(1, b=2)] on a private function. *)
Lemma fetch_call_return_self_private_witness :
  ∃ rest,
    log (fetch_call_return demo.foo_private_type demo.call_self_foo_keyword)
    = call_validate_call_args demo.call_self_foo_keyword (ArgRange 1 2) ["b"]
      :: rest.
Proof.
  apply (fetch_call_return_self_private
           demo.foo_private_type demo.call_self_foo_keyword);
    reflexivity.
Defined.

(** X12: the calls [fetch_call_return] makes are always an initial segment
    of: the shape check, the validation of each positional argument against
    the type declared at its position (arguments beyond the declared ones
    are not validated), the check of each keyword; they are all made when
    the call is accepted. *)
Theorem fetch_call_return_call_order `{Collaborators}
    (self : ContractFunctionType) (node : vy_ast.call) :
  ¬ (vy_ast.get_func_value_id node = Some "self" ∧ visibility self = PUBLIC) →
  log (fetch_call_return self node)
    `prefix_of` fetch_call_return_calls self node
  ∧ ∀ rt, outcome (fetch_call_return self node) = Ok rt →
          log (fetch_call_return self node)
          = fetch_call_return_calls self node.
Proof.
  intros Hnot. split.
  - rewrite fetch_call_return_unfold by done. unfold fetch_call_return_calls.
    unfold validate_call_args. unfold external at 1.
    unfold mbind at 1, M_bind.
    cbn [outcome log].
    destruct (ext_validate_call_args _ _ _) as [[]|e]; cbn [log outcome app];
      [|apply prefix_cons, prefix_nil].
    apply prefix_cons.
    match goal with
    | |- context [for_each (zip ?a ?b) ?f ()] =>
        destruct (outcome (for_each (zip a b) f ())) as [[]|e] eqn:Hpos
    end.
    + rewrite (bind_log_Ok _ _ _ Hpos).
      rewrite (for_each_external_log _ _ _ Hpos). apply prefix_app.
      unfold mbind, M_bind.
      match goal with
      | |- context [for_each (vy_ast.keywords node) ?f ()] =>
          destruct (outcome (for_each (vy_ast.keywords node) f ())) eqn:Hkw
      end; cbn [log outcome]; rewrite ?app_nil_r;
        apply for_each_external_log_prefix.
    + rewrite (bind_Raise _ _ _ Hpos). cbn [log].
      etransitivity; [apply for_each_external_log_prefix|].
      by apply prefix_app_r.
  - intros rt Hok. by apply fetch_call_return_Ok in Hok as (_ & -> & _).
Qed.

(** [token.transfer(1, gas=5)] *)
Lemma fetch_call_return_call_order_witness :
  log (fetch_call_return demo.transfer_public_type
         demo.call_token_transfer_gas)
  = fetch_call_return_calls demo.transfer_public_type
      demo.call_token_transfer_gas.
Proof.
  apply (fetch_call_return_call_order
           demo.transfer_public_type demo.call_token_transfer_gas)
    with (rt := None).
  - intros [Hself _]. discriminate Hself.
  - reflexivity.
Defined.

(** * Further properties: from_abi and from_AnnAssign *)

Section more_from_abi_facts.
Context `{Collaborators}.

(** A loop whose successful turns each log the same calls for an element:
    the log of the loop, when it raises nothing, is these calls in order. *)
Lemma for_each_log_Ok {A S} (body : S → A → M S) (ev : A → event)
    (xs : list A) (s s' : S) :
  (∀ s x s', outcome (body s x) = Ok s' → log (body s x) = [ev x]) →
  outcome (for_each xs body s) = Ok s' →
  log (for_each xs body s) = ev <$> xs.
Proof.
  intros Hbody. revert s. induction xs as [|x xs IH]; intros s; [done|].
  rewrite for_each_cons. intros (s1 & Hx & Hrest)%bind_outcome_Ok.
  rewrite (bind_log_Ok _ _ _ Hx), (Hbody _ _ _ Hx), (IH _ Hrest). done.
Qed.

Lemma mret_log {A} (a : A) : log (mret (M := M) a) = [].
Proof. done. Qed.

Lemma lift_getitem_Some {A} (key : string) (a : A) :
  lift (getitem key (Some a)) = mret a.
Proof. done. Qed.

Lemma abi_input_step_log (arguments : OrderedDict typedef)
    (item : abi_item) (arguments' : OrderedDict typedef) :
  outcome (abi_input_step arguments item) = Ok arguments' →
  log (abi_input_step arguments item) = [abi_event item].
Proof.
  intros (t & s & Ht & Hs & ->)%abi_input_step_Ok.
  unfold abi_input_step, get_type_from_abi, external.
  unfold mbind, M_bind. simpl. rewrite Ht, Hs. done.
Qed.

Lemma abi_output_step_log (types : list typedef) (i : abi_item)
    (types' : list typedef) :
  outcome (abi_output_step types i) = Ok types' →
  log (abi_output_step types i) = [abi_event i].
Proof.
  intros (t & Ht & ->)%abi_output_step_Ok.
  unfold abi_output_step, get_type_from_abi, external.
  unfold mbind, M_bind. simpl. rewrite Ht. done.
Qed.

Lemma abi_return_type_log (outputs : list abi_item) (rt : option typedef) :
  outcome (abi_return_type outputs) = Ok rt →
  log (abi_return_type outputs) = abi_event <$> outputs.
Proof.
  unfold abi_return_type. destruct outputs as [|o [|o' outputs]].
  - done.
  - intros (t & Ht & _)%bind_outcome_Ok.
    by rewrite (bind_log_Ok _ _ _ Ht).
  - intros (ts & Hts & _)%bind_outcome_Ok.
    rewrite (bind_log_Ok _ _ _ Hts), mret_log, app_nil_r.
    exact (for_each_log_Ok abi_output_step abi_event _ _ _
             abi_output_step_log Hts).
Qed.

(** The input loop raises nothing when every entry has a name and a type
    that resolves. *)
Lemma abi_input_loop_total (inputs : list abi_item)
    (d : OrderedDict typedef) :
  Forall (λ item,
            is_Some (item_name item)
            ∧ ∃ t, ext_get_type_from_abi item CALLDATA (Some true) = Ok t)
         inputs →
  ∃ d', outcome (for_each inputs abi_input_step d) = Ok d'.
Proof.
  intros Hall. revert d.
  induction Hall as [|item inputs ([s Hs] & t & Ht) _ IH]; intros d.
  - by exists d.
  - destruct (IH (od_set s t d)) as [d' Hd'].
    exists d'. rewrite for_each_cons. apply bind_outcome_Ok.
    exists (od_set s t d). split; [|done].
    apply abi_input_step_Ok. eauto.
Qed.

Lemma abi_input_loop_resolved (inputs : list abi_item)
    (d : OrderedDict typedef) :
  outcome (for_each inputs abi_input_step []) = Ok d →
  Forall (λ item,
            is_Some (item_name item)
            ∧ ∃ t, ext_get_type_from_abi item CALLDATA (Some true) = Ok t)
         inputs.
Proof.
  apply (for_each_Ok_ind (λ done _,
    Forall (λ item,
              is_Some (item_name item)
              ∧ ∃ t, ext_get_type_from_abi item CALLDATA (Some true) = Ok t)
           done)); [constructor|].
  intros done item d1 d2 Hdone (t & s & Ht & Hs & _)%abi_input_step_Ok.
  apply Forall_app. split; [done|]. apply Forall_singleton. eauto.
Qed.

Lemma abi_output_loop_total (outputs : list abi_item) (ts : list typedef) :
  Forall (λ o, ∃ t, ext_get_type_from_abi o CALLDATA (Some true) = Ok t)
         outputs →
  ∃ ts', outcome (for_each outputs abi_output_step ts) = Ok ts'.
Proof.
  intros Hall. revert ts.
  induction Hall as [|o outputs [t Ht] _ IH]; intros ts.
  - by exists ts.
  - destruct (IH (ts ++ [t])) as [ts' Hts'].
    exists ts'. rewrite for_each_cons. apply bind_outcome_Ok.
    exists (ts ++ [t]). split; [|done].
    apply abi_output_step_Ok. eauto.
Qed.

Lemma abi_return_type_total (outputs : list abi_item) :
  (∃ rt, outcome (abi_return_type outputs) = Ok rt)
  ↔ Forall (λ o, ∃ t, ext_get_type_from_abi o CALLDATA (Some true) = Ok t)
           outputs.
Proof.
  split.
  - intros [rt Hrt%abi_return_type_Ok].
    destruct outputs as [|o [|o' outputs]].
    + constructor.
    + destruct Hrt as (t & Ht & _). apply Forall_singleton. eauto.
    + destruct Hrt as (ts & Hts & _).
      eapply Forall2_Forall_l; [exact Hts|]. apply Forall_forall. eauto.
  - intros Hall. unfold abi_return_type.
    destruct outputs as [|o [|o' outputs]].
    + by eexists.
    + apply Forall_singleton in Hall as [t Ht]. exists (Some t).
      apply bind_outcome_Ok. by exists t.
    + destruct (abi_output_loop_total _ [] Hall) as [ts Hts].
      exists (Some (TupleDefinition ts)). apply bind_outcome_Ok. by exists ts.
Qed.

End more_from_abi_facts.

(** X13: [from_abi] returns a function type exactly for the records that
    have the keys [inputs], [outputs] and [name], whose inputs each have a
    name, whose inputs and outputs each have a type that resolves, and
    whose mutability [StateMutability.from_abi] can read. *)
Theorem from_abi_returns `{Collaborators} (abi : abi_dict) :
  (∃ ft, outcome (from_abi abi) = Ok ft)
  ↔ ∃ inputs outputs name state_mutability,
      abi_inputs abi = Some inputs
      ∧ abi_outputs abi = Some outputs
      ∧ abi_name abi = Some name
      ∧ Forall (λ item,
                  is_Some (item_name item)
                  ∧ ∃ t, ext_get_type_from_abi item CALLDATA (Some true)
                         = Ok t)
               inputs
      ∧ Forall (λ o, ∃ t, ext_get_type_from_abi o CALLDATA (Some true) = Ok t)
               outputs
      ∧ StateMutability_from_abi abi = Ok state_mutability.
Proof.
  split.
  - intros [ft (inputs & outputs & name & arguments & rt & m
                 & Hin & Hout & Hname & Hloop & Hret & Hm & _)%from_abi_Ok].
    exists inputs, outputs, name, m. repeat split; try done.
    + by eapply abi_input_loop_resolved.
    + apply abi_return_type_total. eauto.
  - intros (inputs & outputs & name & m & Hin & Hout & Hname & Hi & Ho & Hm).
    destruct (abi_input_loop_total _ [] Hi) as [arguments Hloop].
    apply abi_return_type_total in Ho as [rt Hrt].
    eexists. unfold from_abi. rewrite Hin, Hout, Hname, Hm.
    apply bind_outcome_Ok. exists inputs. split; [done|].
    apply bind_outcome_Ok. exists arguments. split; [done|].
    apply bind_outcome_Ok. exists outputs. split; [done|].
    apply bind_outcome_Ok. exists rt. split; [done|].
    apply bind_outcome_Ok. exists name. split; [done|].
    apply bind_outcome_Ok. exists m. split; [done|]. done.
Qed.

(** X14: for a record whose input names are pairwise distinct, the
    arguments of the type [from_abi] returns are the inputs in order, each
    name bound to the resolved type of its entry, the arity is the number
    of inputs, and [get_signature] gives these types and the return type. *)
Theorem from_abi_distinct_names `{Collaborators} (abi : abi_dict)
    (ft : ContractFunctionType) (inputs : list abi_item) :
  abi_inputs abi = Some inputs →
  NoDup (omap item_name inputs) →
  outcome (from_abi abi) = Ok ft →
  od_keys (arguments ft) = omap item_name inputs
  ∧ Forall2 (λ item t, ext_get_type_from_abi item CALLDATA (Some true) = Ok t)
            inputs (od_values (arguments ft))
  ∧ arg_count ft = ArgExact (Z.of_nat (length inputs))
  ∧ ContractFunctionType_get_signature ft
    = (od_values (arguments ft), return_type ft).
Proof.
  intros Hin Hnodup
    (inputs' & outputs & name & arguments & rt & m
     & Hin' & _ & _ & Hloop & _ & _ & ->)%from_abi_Ok.
  assert (inputs' = inputs) as -> by congruence. simpl.
  assert (NoDup (omap item_name inputs) →
          od_keys arguments = omap item_name inputs
          ∧ Forall2 (λ item t,
                       ext_get_type_from_abi item CALLDATA (Some true) = Ok t)
                    inputs (od_values arguments)) as Hinv.
  { revert Hloop. apply (for_each_Ok_ind (λ done d,
      NoDup (omap item_name done) →
      od_keys d = omap item_name done
      ∧ Forall2 (λ item t,
                   ext_get_type_from_abi item CALLDATA (Some true) = Ok t)
                done (od_values d))).
    { intros _. split; [done|constructor]. }
    intros done item d d' IH (t & s & Ht & Hs & ->)%abi_input_step_Ok.
    rewrite omap_app. simpl. rewrite Hs. simpl.
    intros [Hnd [Hfresh _]]%NoDup_app.
    destruct (IH Hnd) as [Hkeys Hvals].
    assert (s ∉ od_keys d) as Hs'.
    { rewrite Hkeys. intros Hin''. apply (Hfresh s Hin''). left. }
    rewrite od_set_fresh by done. unfold od_keys, od_values in *.
    rewrite !fmap_app, Hkeys. split; [done|].
    apply Forall2_app; [done|]. by repeat constructor. }
  destruct (Hinv Hnodup) as [Hkeys Hvals].
  split; [done|]. split; [done|]. split; [|done].
  f_equal. unfold od_len. f_equal.
  apply Forall2_length in Hvals. unfold od_values in Hvals.
  by rewrite length_fmap in Hvals.
Qed.

(** X15: a construction by [from_abi] that completes has called
    [get_type_from_abi] once for each input and then once for each output,
    in order, each time at [CALLDATA] and immutable, and has called nothing
    else. *)
Theorem from_abi_calls `{Collaborators} (abi : abi_dict)
    (ft : ContractFunctionType) (inputs outputs : list abi_item) :
  abi_inputs abi = Some inputs →
  abi_outputs abi = Some outputs →
  outcome (from_abi abi) = Ok ft →
  log (from_abi abi) = abi_event <$> (inputs ++ outputs).
Proof.
  intros Hin Hout
    (inputs' & outputs' & name & arguments & rt & m
     & Hin' & Hout' & Hname & Hloop & Hret & Hm & _)%from_abi_Ok.
  assert (inputs' = inputs) as -> by congruence.
  assert (outputs' = outputs) as -> by congruence.
  unfold from_abi. rewrite Hin, Hout, Hname, Hm.
  rewrite (bind_log_Ok _ _ inputs) by done.
  rewrite (bind_log_Ok _ _ _ Hloop).
  rewrite (bind_log_Ok _ _ outputs) by done.
  rewrite (bind_log_Ok _ _ _ Hret).
  rewrite (for_each_log_Ok abi_input_step abi_event _ _ _
             abi_input_step_log Hloop).
  rewrite (abi_return_type_log _ _ Hret).
  simpl. by rewrite app_nil_r, fmap_app.
Qed.

(** X16: the name of the type [from_abi] returns is the record's [name]
    and its mutability is what [StateMutability.from_abi] reads from the
    same record. *)
Theorem from_abi_name_mutability `{Collaborators} (abi : abi_dict)
    (ft : ContractFunctionType) :
  outcome (from_abi abi) = Ok ft →
  abi_name abi = Some (name ft)
  ∧ StateMutability_from_abi abi = Ok (mutability ft).
Proof.
  by intros (inputs & outputs & name & arguments & rt & m
             & _ & _ & Hname & _ & _ & Hm & ->)%from_abi_Ok.
Qed.

(** X17: a record without [inputs] makes [from_abi] raise [KeyError]
    before any type is resolved; one without [outputs] raises it once the
    inputs are read; one without [name] once the return type is built. *)
Theorem from_abi_missing_key `{Collaborators} (abi : abi_dict) :
  (abi_inputs abi = None →
   from_abi abi = mkM [] (Raise (Exn KeyError [FStr "inputs"])))
  ∧ (∀ inputs arguments,
       abi_inputs abi = Some inputs →
       outcome (for_each inputs abi_input_step []) = Ok arguments →
       abi_outputs abi = None →
       from_abi abi
       = mkM (abi_event <$> inputs) (Raise (Exn KeyError [FStr "outputs"])))
  ∧ (∀ inputs outputs,
       abi_inputs abi = Some inputs →
       abi_outputs abi = Some outputs →
       Forall (λ item,
                 is_Some (item_name item)
                 ∧ ∃ t, ext_get_type_from_abi item CALLDATA (Some true)
                        = Ok t)
              inputs →
       Forall (λ o, ∃ t, ext_get_type_from_abi o CALLDATA (Some true) = Ok t)
              outputs →
       abi_name abi = None →
       from_abi abi
       = mkM (abi_event <$> (inputs ++ outputs))
             (Raise (Exn KeyError [FStr "name"]))).
Proof.
  split; [|split].
  - intros Hin. unfold from_abi. by rewrite Hin.
  - intros inputs arguments Hin Hloop Hout. unfold from_abi.
    rewrite Hin, Hout, lift_getitem_Some, M_left_id, (bind_Ok _ _ _ Hloop).
    rewrite (for_each_log_Ok abi_input_step abi_event _ _ _
               abi_input_step_log Hloop).
    simpl. by rewrite app_nil_r.
  - intros inputs outputs Hin Hout Hi Ho Hname. unfold from_abi.
    destruct (abi_input_loop_total _ [] Hi) as [arguments Hloop].
    apply abi_return_type_total in Ho as [rt Hrt].
    rewrite Hin, Hout, Hname, !lift_getitem_Some, M_left_id.
    rewrite (bind_Ok _ _ _ Hloop).
    rewrite (for_each_log_Ok abi_input_step abi_event _ _ _
               abi_input_step_log Hloop).
    rewrite M_left_id, (bind_Ok _ _ _ Hrt).
    rewrite (abi_return_type_log _ _ Hrt).
    simpl. by rewrite !app_nil_r, fmap_app.
Qed.

Lemma from_abi_distinct_names_witness :
  ∃ ft,
    outcome (from_abi samples.abi_balance) = Ok ft
    ∧ od_keys (arguments ft) = ["to"; "amount"]
    ∧ arg_count ft = ArgExact 2.
Proof.
  eexists. split; [reflexivity|].
  edestruct (from_abi_distinct_names samples.abi_balance) as (Hk & _ & Hc & _);
    [reflexivity| |reflexivity|].
  - simpl. repeat constructor; set_solver.
  - split; [exact Hk|exact Hc].
Defined.

Lemma from_abi_calls_witness :
  log (from_abi samples.abi_balance)
  = [call_get_type_from_abi
       {| item_name := Some "to"; item_type := "address" |}
       CALLDATA (Some true);
     call_get_type_from_abi
       {| item_name := Some "amount"; item_type := "uint256" |}
       CALLDATA (Some true);
     call_get_type_from_abi
       {| item_name := None; item_type := "bool" |} CALLDATA (Some true)].
Proof.
  etransitivity;
    [eapply (from_abi_calls samples.abi_balance); reflexivity|reflexivity].
Defined.

Lemma from_abi_name_mutability_witness :
  StateMutability_from_abi samples.abi_balance = Ok VIEW.
Proof.
  edestruct (from_abi_name_mutability samples.abi_balance) as [_ Hm];
    [reflexivity|exact Hm].
Defined.

Lemma from_abi_missing_key_witness :
  from_abi samples.abi_without_outputs
  = mkM [call_get_type_from_abi
           {| item_name := Some "to"; item_type := "address" |}
           CALLDATA (Some true)]
        (Raise (Exn KeyError [FStr "outputs"])).
Proof.
  destruct (from_abi_missing_key (H := demo.compiler)
              samples.abi_without_outputs) as (_ & Hout & _).
  etransitivity; [eapply Hout; reflexivity|reflexivity].
Defined.

Section more_from_AnnAssign_facts.
Context `{Collaborators}.

(** What [from_AnnAssign] does for a declaration [id: public(annotation)]
    whose type resolves and has a signature. *)
Lemma from_AnnAssign_eq (node : vy_ast.AnnAssign)
    (id : string) (c : vy_ast.call) (annotation : vy_ast.expr)
    (rest : list vy_ast.expr) (type_ : typedef)
    (argument_types : list typedef) (return_type' : option typedef) :
  vy_ast.aa_target node = vy_ast.Name id →
  vy_ast.aa_annotation node = vy_ast.Call c →
  vy_ast.args c = annotation :: rest →
  ext_get_type_from_annotation annotation STORAGE None = Ok type_ →
  ext_get_signature type_ = Ok (argument_types, return_type') →
  from_AnnAssign node
  = mkM [call_get_type_from_annotation annotation STORAGE None;
         call_get_signature type_]
        (Ok (ContractFunctionType__init__ id
               (zip (accessor_arg_name <$> seq 0 (length argument_types))
                    argument_types)
               (ArgExact (Z.of_nat (length argument_types)))
               return_type' PUBLIC NONPAYABLE None)).
Proof.
  intros Htarget Hann Hargs Htype Hsig.
  unfold from_AnnAssign. rewrite Hann, Hargs. cbv beta iota. rewrite M_left_id.
  rewrite (bind_Ok (get_type_from_annotation annotation STORAGE None)
             _ type_ Htype).
  rewrite (bind_Ok (get_signature type_) _ _ Hsig). cbv beta iota.
  rewrite accessor_loop_all, M_left_id, Htarget. done.
Qed.

End more_from_AnnAssign_facts.

(** X18: [from_AnnAssign] raises [CompilerPanic] for an annotation that is
    no call and [IndexError] for a call without arguments, both before any
    other function is called; an exception of [get_type_from_annotation]
    is passed on; a target that is no name raises [AttributeError], but
    only once the type is resolved and its signature read. *)
Theorem from_AnnAssign_errors `{Collaborators} (node : vy_ast.AnnAssign) :
  ((∀ c, vy_ast.aa_annotation node ≠ vy_ast.Call c) →
   from_AnnAssign node
   = mkM [] (Raise (Exn CompilerPanic
                      [Lit "Annotation must be a call to public()"])))
  ∧ (∀ c, vy_ast.aa_annotation node = vy_ast.Call c →
          vy_ast.args c = [] →
          from_AnnAssign node
          = mkM [] (Raise (Exn IndexError [Lit "list index out of range"])))
  ∧ (∀ c annotation rest e,
        vy_ast.aa_annotation node = vy_ast.Call c →
        vy_ast.args c = annotation :: rest →
        ext_get_type_from_annotation annotation STORAGE None = Raise e →
        from_AnnAssign node
        = mkM [call_get_type_from_annotation annotation STORAGE None]
              (Raise e))
  ∧ (∀ c annotation rest type_ signature,
        vy_ast.aa_annotation node = vy_ast.Call c →
        vy_ast.args c = annotation :: rest →
        ext_get_type_from_annotation annotation STORAGE None = Ok type_ →
        ext_get_signature type_ = Ok signature →
        vy_ast.get_id (vy_ast.aa_target node) = None →
        ∃ msg,
          from_AnnAssign node
          = mkM [call_get_type_from_annotation annotation STORAGE None;
                 call_get_signature type_]
                (Raise (Exn AttributeError msg))).
Proof.
  split; [|split; [|split]].
  - intros Hnot. unfold from_AnnAssign.
    destruct (vy_ast.aa_annotation node); try done. by destruct (Hnot c).
  - intros c Hann Hargs. unfold from_AnnAssign. by rewrite Hann, Hargs.
  - intros c annotation rest e Hann Hargs Htype.
    unfold from_AnnAssign.
    rewrite Hann, Hargs. cbv beta iota. rewrite M_left_id.
    by rewrite (bind_Raise (get_type_from_annotation annotation STORAGE None)
                  _ e Htype).
  - intros c annotation rest type_ [argument_types rt] Hann Hargs Htype Hsig
      Htarget.
    eexists. unfold from_AnnAssign.
    rewrite Hann, Hargs. cbv beta iota. rewrite M_left_id.
    rewrite (bind_Ok (get_type_from_annotation annotation STORAGE None)
               _ type_ Htype).
    rewrite (bind_Ok (get_signature type_) _ _ Hsig). cbv beta iota.
    rewrite accessor_loop_all, M_left_id, Htarget. done.
Qed.

Lemma from_AnnAssign_errors_witness :
  from_AnnAssign samples.owner_not_public
  = mkM [] (Raise (Exn CompilerPanic
                     [Lit "Annotation must be a call to public()"]))
  ∧ ∃ msg,
      from_AnnAssign samples.subscript_target
      = mkM [call_get_type_from_annotation (vy_ast.Name "uint256")
               STORAGE None;
             call_get_signature (demo.Base "uint256")]
            (Raise (Exn AttributeError msg)).
Proof.
  split.
  - by apply (from_AnnAssign_errors samples.owner_not_public).
  - destruct (from_AnnAssign_errors (H := demo.compiler)
                samples.subscript_target) as (_ & _ & _ & Htarget).
    eapply Htarget; reflexivity.
Defined.

(** X19: the accessor [from_AnnAssign] synthesises gives back, through
    [get_signature], exactly the argument types and the return type that
    the variable's type reported; to build it, the type was resolved once,
    in [STORAGE], and its signature read once. *)
Theorem from_AnnAssign_get_signature `{Collaborators}
    (node : vy_ast.AnnAssign) (id : string) (c : vy_ast.call)
    (annotation : vy_ast.expr) (rest : list vy_ast.expr) (type_ : typedef)
    (argument_types : list typedef) (return_type' : option typedef) :
  vy_ast.aa_target node = vy_ast.Name id →
  vy_ast.aa_annotation node = vy_ast.Call c →
  vy_ast.args c = annotation :: rest →
  ext_get_type_from_annotation annotation STORAGE None = Ok type_ →
  ext_get_signature type_ = Ok (argument_types, return_type') →
  ∃ ft,
    outcome (from_AnnAssign node) = Ok ft
    ∧ ContractFunctionType_get_signature ft = (argument_types, return_type')
    ∧ log (from_AnnAssign node)
      = [call_get_type_from_annotation annotation STORAGE None;
         call_get_signature type_].
Proof.
  intros Htarget Hann Hargs Htype Hsig.
  rewrite (from_AnnAssign_eq _ _ _ _ _ _ _ _ Htarget Hann Hargs Htype Hsig).
  eexists. split; [done|]. split; [|done].
  unfold ContractFunctionType_get_signature. simpl. f_equal.
  unfold od_values. rewrite snd_zip; [done|].
  rewrite length_fmap, length_seq. lia.
Qed.

Lemma from_AnnAssign_get_signature_witness :
  ∃ ft,
    outcome (from_AnnAssign demo.allowance) = Ok ft
    ∧ ContractFunctionType_get_signature ft
      = ([demo.Base "address"; demo.Base "address"],
         Some (demo.Base "uint256")).
Proof.
  edestruct (from_AnnAssign_get_signature (H := demo.compiler)
               demo.allowance) as (ft & Hok & Hsig & _);
    [reflexivity..|].
  exists ft. split; [exact Hok|exact Hsig].
Defined.

(** * Further properties: success and errors of from_FunctionDef *)

Section success_facts.
Context `{Collaborators}.

Lemma count_cons {A} (f : A → bool) (x : A) (l : list A) :
  count f (x :: l) = ((if f x then 1 else 0) + count f l)%nat.
Proof. unfold count. rewrite filter_cons. destruct (f x); by case_decide. Qed.

(** The three decorators that are accepted, each on a [kwargs] where its
    key is not set yet. *)
Lemma decorator_step_visibility (kwargs : kwargs_t) (v : FunctionVisibility) :
  kw_function_visibility kwargs = None →
  decorator_step kwargs (vy_ast.Name (value v))
  = mret (set_function_visibility v kwargs).
Proof.
  intros Hnone. unfold decorator_step.
  destruct (decorator_kind_visibility v) as (Hv & _ & _).
  unfold is_visibility_decorator in Hv.
  rewrite Hv, Hnone, from_raw_FunctionVisibility_value.
  exact (M_left_id v (λ v, mret (set_function_visibility v kwargs))).
Qed.

Lemma decorator_step_mutability (kwargs : kwargs_t) (m : StateMutability) :
  kw_state_mutability kwargs = None →
  decorator_step kwargs (vy_ast.Name (value m))
  = mret (set_state_mutability m kwargs).
Proof.
  intros Hnone. unfold decorator_step.
  destruct (decorator_kind_mutability m) as (Hv & Hm & _).
  unfold is_visibility_decorator in Hv. unfold is_mutability_decorator in Hm.
  rewrite Hv, Hm, Hnone, from_raw_StateMutability_value.
  exact (M_left_id m (λ m, mret (set_state_mutability m kwargs))).
Qed.

Lemma decorator_step_nonreentrant (kwargs : kwargs_t) (c : vy_ast.call)
    (key : string) :
  kw_nonreentrant kwargs = None →
  vy_ast.get_func_id c = Some "nonreentrant" →
  vy_ast.args c = [vy_ast.Str key] →
  decorator_step kwargs (vy_ast.Call c) = mret (set_nonreentrant key kwargs).
Proof.
  intros Hnone Hid Hargs. unfold decorator_step.
  rewrite Hnone, Hargs. by rewrite bool_decide_eq_false_2 by (by intros []).
Qed.

(** Decorators of the accepted forms that set no key twice are read
    without an exception. *)
Lemma decorators_loop_total (decorators : list vy_ast.expr)
    (kwargs : kwargs_t) :
  Forall (λ d,
            (∃ v : FunctionVisibility, d = vy_ast.Name (value v))
            ∨ (∃ m : StateMutability, d = vy_ast.Name (value m))
            ∨ (∃ c key, d = vy_ast.Call c
                        ∧ vy_ast.get_func_id c = Some "nonreentrant"
                        ∧ vy_ast.args c = [vy_ast.Str key]))
         decorators →
  (count is_visibility_decorator decorators
   + set_count (kw_function_visibility kwargs) ≤ 1)%nat →
  (count is_mutability_decorator decorators
   + set_count (kw_state_mutability kwargs) ≤ 1)%nat →
  (count is_call_decorator decorators
   + set_count (kw_nonreentrant kwargs) ≤ 1)%nat →
  ∃ kwargs', outcome (for_each decorators decorator_step kwargs) = Ok kwargs'.
Proof.
  intros Hall. revert kwargs.
  induction Hall as [|d ds Hd _ IH]; intros kwargs Hv Hm Hl.
  { by exists kwargs. }
  rewrite !count_cons in *. rewrite for_each_cons.
  destruct Hd as [[v ->]|[[m ->]|(c & key & -> & Hid & Hargs)]].
  - destruct (decorator_kind_visibility v) as (Ev & Em & El).
    rewrite Ev in Hv. rewrite Em in Hm. rewrite El in Hl.
    destruct (kw_function_visibility kwargs) eqn:Hnone; [simpl in Hv; lia|].
    rewrite decorator_step_visibility, M_left_id by done.
    apply IH; simpl in *; lia.
  - destruct (decorator_kind_mutability m) as (Ev & Em & El).
    rewrite Ev in Hv. rewrite Em in Hm. rewrite El in Hl.
    destruct (kw_state_mutability kwargs) eqn:Hnone; [simpl in Hm; lia|].
    rewrite decorator_step_mutability, M_left_id by done.
    apply IH; simpl in *; lia.
  - simpl in Hv, Hm, Hl.
    destruct (kw_nonreentrant kwargs) eqn:Hnone; [simpl in Hl; lia|].
    rewrite (decorator_step_nonreentrant _ _ key), M_left_id by done.
    apply IH; simpl in *; lia.
Qed.

(** Parameters that pass the checks, under new and distinct names, are
    bound without an exception. *)
Lemma argument_loop_total (items : list (vy_ast.arg * option vy_ast.expr))
    (arguments : OrderedDict typedef) :
  NoDup ((vy_ast.arg_arg ∘ fst) <$> items) →
  (∀ s, s ∈ (vy_ast.arg_arg ∘ fst) <$> items → s ∉ od_keys arguments) →
  Forall (λ item,
            (vy_ast.arg_arg item.1 ∉ ["gas"; "value"])
            ∧ (vy_ast.arg_arg item.1 ∉ ns_self_members get_namespace)
            ∧ (vy_ast.arg_arg item.1 ∉ ns_names get_namespace)
            ∧ ∃ annotation t,
                vy_ast.arg_annotation item.1 = Some annotation
                ∧ ext_get_type_from_annotation annotation CALLDATA (Some true)
                  = Ok t
                ∧ ∀ v, item.2 = Some v →
                       ext_check_constant v = true
                       ∧ ext_validate_expected_type (PyNode v) (PyType t)
                         = Ok ())
         items →
  ∃ arguments', outcome (for_each items argument_step arguments) = Ok arguments'.
Proof.
  intros Hnodup Hfresh Hall. revert arguments Hnodup Hfresh.
  induction Hall as [|[arg value] items
                      (Hres & Hself & Hns & annotation & t & Hann & Ht & Hv)
                      _ IH];
    intros arguments Hnodup Hfresh.
  { by exists arguments. }
  rewrite fmap_cons in Hnodup, Hfresh. cbn [compose fst snd] in *.
  apply NoDup_cons in Hnodup as [Hnew Hnodup].
  destruct (IH (od_set (vy_ast.arg_arg arg) t arguments) Hnodup)
    as [arguments' Hok].
  { intros s Hs. rewrite od_keys_set_elem. intros [->|Hin]; [done|].
    apply (Hfresh s); [by right|done]. }
  exists arguments'. rewrite for_each_cons. apply bind_outcome_Ok.
  exists (od_set (vy_ast.arg_arg arg) t arguments). split; [|done].
  apply argument_step_Ok_iff. repeat split; try done.
  - apply Hfresh. left.
  - by exists annotation, t.
Qed.

(** The return annotations from which a return type is built. *)
Lemma FunctionDef_return_type_total (returns : option vy_ast.expr) :
  (∃ rt, outcome (FunctionDef_return_type returns) = Ok rt)
  ↔ match returns with
    | None => True
    | Some (vy_ast.Tuple elements) =>
        Forall (λ n, ∃ t, ext_get_type_from_annotation n MEMORY None = Ok t)
               elements
    | Some (vy_ast.Name _ as r)
    | Some (vy_ast.Call _ as r)
    | Some (vy_ast.Subscript _ _ as r) =>
        ∃ t, ext_get_type_from_annotation r MEMORY None = Ok t
    | Some _ => False
    end.
Proof.
  split.
  - intros [rt Hrt]. apply FunctionDef_return_type_Ok in Hrt.
    destruct returns as [[id|v a|v sl|c|elements|elements|sv|z]|];
      try done; try (by destruct Hrt as (t & Ht & _); eauto).
    destruct Hrt as (ts & Hts & _).
    eapply Forall2_Forall_l; [exact Hts|]. apply Forall_forall. eauto.
  - unfold FunctionDef_return_type.
    destruct returns as [[id|v a|v sl|c|elements|elements|sv|z]|];
      try done.
    + intros [t Ht]. exists (Some t). apply bind_outcome_Ok. by exists t.
    + intros [t Ht]. exists (Some t). apply bind_outcome_Ok. by exists t.
    + intros [t Ht]. exists (Some t). apply bind_outcome_Ok. by exists t.
    + intros Hall.
      assert (∀ ts, ∃ ts',
                outcome (for_each elements
                           (λ tuple_types n,
                              type_ ← get_type_from_annotation n MEMORY None;
                              mret (tuple_types ++ [type_])) ts) = Ok ts')
        as Hloop.
      { induction Hall as [|n ns [t Ht] _ IH]; intros ts; [by exists ts|].
        destruct (IH (ts ++ [t])) as [ts' Hts'].
        exists ts'. rewrite for_each_cons. apply bind_outcome_Ok.
        exists (ts ++ [t]). split; [|done].
        apply bind_outcome_Ok. by exists t. }
      destruct (Hloop []) as [ts Hts].
      exists (Some (TupleDefinition ts)). apply bind_outcome_Ok. by exists ts.
    + intros _. by exists None.
Qed.

End success_facts.


Section more_from_FunctionDef_runs.
Context `{Collaborators}.

(** The steps of [from_FunctionDef] that raise nothing compose to a
    function type. *)
Lemma from_FunctionDef_Ok_intro (node : vy_ast.FunctionDef)
    (is_immutable is_public : option bool) (include_defaults : bool)
    (kwargs : kwargs_t) (v : FunctionVisibility)
    (arguments : OrderedDict typedef) (return_type : option typedef) :
  outcome (for_each (vy_ast.fd_decorator_list node) decorator_step
             (initial_kwargs is_immutable is_public)) = Ok kwargs →
  kw_function_visibility kwargs = Some v →
  outcome (for_each
             (zip (vy_ast.args_args (vy_ast.fd_args node))
                  (FunctionDef_defaults (vy_ast.fd_args node)
                     include_defaults))
             argument_step []) = Ok arguments →
  outcome (FunctionDef_return_type (vy_ast.fd_returns node))
  = Ok return_type →
  ∃ ft,
    outcome (from_FunctionDef node is_immutable is_public include_defaults)
    = Ok ft.
Proof.
  intros Hdec Hvis Hargs Hret. unfold from_FunctionDef.
  eexists. apply bind_outcome_Ok. exists kwargs. split; [done|].
  apply bind_outcome_Ok. exists v. split; [by rewrite Hvis|].
  apply bind_outcome_Ok.
  exists (default NONPAYABLE (kw_state_mutability kwargs)).
  split; [by destruct (kw_state_mutability kwargs)|].
  apply bind_outcome_Ok. exists arguments. split; [done|].
  apply bind_outcome_Ok. exists return_type. split; [done|]. reflexivity.
Qed.

(** The exception of the first decorator that raises one is the exception
    of [from_FunctionDef]. *)
Lemma from_FunctionDef_decorator_stops (node : vy_ast.FunctionDef)
    (is_immutable is_public : option bool) (include_defaults : bool)
    (pre post : list vy_ast.expr) (d : vy_ast.expr)
    (kwargs : kwargs_t) (e : exn) :
  vy_ast.fd_decorator_list node = pre ++ d :: post →
  outcome (for_each pre decorator_step
             (initial_kwargs is_immutable is_public)) = Ok kwargs →
  outcome (decorator_step kwargs d) = Raise e →
  from_FunctionDef node is_immutable is_public include_defaults
  = mkM (log (for_each pre decorator_step
                (initial_kwargs is_immutable is_public))
         ++ log (decorator_step kwargs d))
        (Raise e).
Proof.
  intros Hlist Hpre Hd. unfold from_FunctionDef.
  rewrite Hlist, for_each_app, M_assoc, (bind_Ok _ _ _ Hpre).
  rewrite for_each_cons, !M_assoc, (bind_Raise _ _ _ Hd). done.
Qed.


End more_from_FunctionDef_runs.

(** X20: [from_FunctionDef] returns a function type exactly for the
    declarations that pass every check: the decorators are visibility tags,
    mutability tags and [@nonreentrant("key")] calls; the visibility is set
    exactly once, the mutability and the lock at most once, the override
    flags counted; the parameter names are pairwise distinct, none is [gas]
    or [value], a member of [self] or a name of the namespace; each
    parameter has an annotation that resolves, and its default (when
    defaults are included) is constant and validates against the resolved
    type; the return annotation is absent, a resolvable type name, call or
    subscript, or a tuple of resolvable annotations. *)
Theorem from_FunctionDef_succeeds `{Collaborators}
    (node : vy_ast.FunctionDef) (is_immutable is_public : option bool)
    (include_defaults : bool) :
  (∃ ft,
     outcome (from_FunctionDef node is_immutable is_public include_defaults)
     = Ok ft)
  ↔ Forall (λ d,
              (∃ v : FunctionVisibility, d = vy_ast.Name (value v))
              ∨ (∃ m : StateMutability, d = vy_ast.Name (value m))
              ∨ (∃ c key, d = vy_ast.Call c
                          ∧ vy_ast.get_func_id c = Some "nonreentrant"
                          ∧ vy_ast.args c = [vy_ast.Str key]))
           (vy_ast.fd_decorator_list node)
    ∧ (count is_visibility_decorator (vy_ast.fd_decorator_list node)
       + set_count is_public = 1)%nat
    ∧ (count is_mutability_decorator (vy_ast.fd_decorator_list node)
       + set_count is_immutable ≤ 1)%nat
    ∧ (count is_call_decorator (vy_ast.fd_decorator_list node) ≤ 1)%nat
    ∧ NoDup (vy_ast.arg_arg <$> vy_ast.args_args (vy_ast.fd_args node))
    ∧ Forall (λ item,
                (vy_ast.arg_arg item.1 ∉ ["gas"; "value"])
                ∧ (vy_ast.arg_arg item.1 ∉ ns_self_members get_namespace)
                ∧ (vy_ast.arg_arg item.1 ∉ ns_names get_namespace)
                ∧ ∃ annotation t,
                    vy_ast.arg_annotation item.1 = Some annotation
                    ∧ ext_get_type_from_annotation annotation CALLDATA
                        (Some true) = Ok t
                    ∧ ∀ v, item.2 = Some v →
                           ext_check_constant v = true
                           ∧ ext_validate_expected_type (PyNode v) (PyType t)
                             = Ok ())
             (zip (vy_ast.args_args (vy_ast.fd_args node))
                  (FunctionDef_defaults (vy_ast.fd_args node)
                     include_defaults))
    ∧ match vy_ast.fd_returns node with
      | None => True
      | Some (vy_ast.Tuple elements) =>
          Forall (λ n, ∃ t, ext_get_type_from_annotation n MEMORY None = Ok t)
                 elements
      | Some (vy_ast.Name _ as r)
      | Some (vy_ast.Call _ as r)
      | Some (vy_ast.Subscript _ _ as r) =>
          ∃ t, ext_get_type_from_annotation r MEMORY None = Ok t
      | Some _ => False
      end.
Proof.
  assert (vy_ast.arg_arg <$> vy_ast.args_args (vy_ast.fd_args node)
          = (vy_ast.arg_arg ∘ fst)
              <$> zip (vy_ast.args_args (vy_ast.fd_args node))
                      (FunctionDef_defaults (vy_ast.fd_args node)
                         include_defaults)) as Hnames.
  { rewrite list_fmap_compose, fst_zip; [done|].
    apply FunctionDef_defaults_covers. }
  split.
  - intros [ft (kwargs & v & arguments & rt & Hdec & Hvis & Hargs & Hret & _)
              %from_FunctionDef_Ok].
    destruct (decorators_counted _ _ _ _ Hdec) as (Hforms & Cv & Cm & Cl).
    rewrite Hvis in Cv.
    split; [done|]. split; [done|].
    split; [rewrite Cm; destruct (kw_state_mutability kwargs); simpl; lia|].
    split; [rewrite Cl; destruct (kw_nonreentrant kwargs); simpl; lia|].
    split.
    { rewrite Hnames, <- (argument_loop_keys _ _ Hargs).
      by apply argument_loop_Ok in Hargs as [? _]. }
    split.
    { apply argument_loop_Ok in Hargs as [_ Hall].
      eapply Forall2_Forall_l; [exact Hall|]. apply Forall_forall.
      intros [k t] _ [a d] (_ & ? & ? & ? & annotation & ? & ? & ?).
      repeat split; try done. by exists annotation, t. }
    apply FunctionDef_return_type_total. eauto.
  - intros (Hforms & Cv & Cm & Cl & Hnodup & Hparams & Hret).
    assert (set_count (kw_function_visibility
                         (initial_kwargs is_immutable is_public))
            = set_count is_public) as Iv by (by destruct is_public).
    assert (set_count (kw_state_mutability
                         (initial_kwargs is_immutable is_public))
            = set_count is_immutable) as Im by (by destruct is_immutable).
    destruct (decorators_loop_total (vy_ast.fd_decorator_list node)
                (initial_kwargs is_immutable is_public)) as [kwargs Hdec];
      [done|rewrite Iv; lia|rewrite Im; lia|simpl; lia|].
    destruct (decorators_counted _ _ _ _ Hdec) as (_ & Cv' & _).
    destruct (kw_function_visibility kwargs) as [v|] eqn:Hvis;
      [|simpl in Cv'; lia].
    destruct (argument_loop_total
                (zip (vy_ast.args_args (vy_ast.fd_args node))
                     (FunctionDef_defaults (vy_ast.fd_args node)
                        include_defaults)) [])
      as [arguments Hargs];
      [by rewrite <- Hnames|intros s _; apply not_elem_of_nil|done|].
    apply FunctionDef_return_type_total in Hret as [rt Hret].
    eapply from_FunctionDef_Ok_intro; eauto.
Qed.

(** X21: the first decorator that is none of the accepted forms ends the
    construction: a name that is no visibility and no mutability tag raises
    the unknown-decorator error with the name (after the deprecation
    warning when the name is [constant]); a call raises the not-callable
    error unless it calls [nonreentrant], and otherwise the error asking
    for a single string literal; anything else raises the bad-syntax
    error. *)
Theorem from_FunctionDef_decorator_errors `{Collaborators}
    (node : vy_ast.FunctionDef) (is_immutable is_public : option bool)
    (include_defaults : bool) (pre post : list vy_ast.expr) (d : vy_ast.expr)
    (kwargs : kwargs_t) :
  vy_ast.fd_decorator_list node = pre ++ d :: post →
  outcome (for_each pre decorator_step
             (initial_kwargs is_immutable is_public)) = Ok kwargs →
  let run := from_FunctionDef node is_immutable is_public include_defaults in
  match d with
  | vy_ast.Name id =>
      is_valid_value FunctionVisibility id = false →
      is_valid_value StateMutability id = false →
      outcome run
      = Raise (Exn FunctionDeclarationException
                 [Lit "Unknown decorator: "; FStr id])
      ∧ (id = "constant" →
         warnings_warn
           "'@constant' decorator has been removed (see VIP2040). Use `@view` instead."
           "DeprecationWarning" ∈ log run)
  | vy_ast.Call c =>
      kw_nonreentrant kwargs = None →
      (vy_ast.get_func_id c ≠ Some "nonreentrant" →
       outcome run
       = Raise (Exn StructureException [Lit "Decorator is not callable"]))
      ∧ (vy_ast.get_func_id c = Some "nonreentrant" →
         (∀ key, vy_ast.args c ≠ [vy_ast.Str key]) →
         outcome run
         = Raise (Exn StructureException
                    [Lit "@nonreentrant name must be given as a single string literal"]))
  | _ =>
      outcome run = Raise (Exn StructureException [Lit "Bad decorator syntax"])
  end.
Proof.
  intros Hlist Hpre run. subst run.
  pose proof (from_FunctionDef_decorator_stops node is_immutable is_public
                include_defaults pre post d kwargs) as Hstop.
  destruct d as [id|v a|v sl|c|elements|elements|sv|z];
    try (by erewrite Hstop by done).
  - intros Hv Hm.
    assert (outcome (decorator_step kwargs (vy_ast.Name id))
            = Raise (Exn FunctionDeclarationException
                       [Lit "Unknown decorator: "; FStr id])) as Hd.
    { unfold decorator_step. rewrite Hv, Hm. by case_bool_decide. }
    rewrite (Hstop _ Hlist Hpre Hd). split; [done|].
    intros ->. cbn [log]. apply elem_of_app. right.
    unfold decorator_step. rewrite Hv, Hm. simpl. left.
  - intros Hlock. split.
    + intros Hid. erewrite Hstop; [done..|].
      unfold decorator_step. rewrite Hlock.
      by rewrite bool_decide_eq_true_2 by done.
    + intros Hid Hargs. erewrite Hstop; [done..|].
      unfold decorator_step. rewrite Hlock.
      rewrite bool_decide_eq_false_2 by (by intros []).
      destruct (vy_ast.args c) as [|[id|v a|v sl|c'|els|els|s|z] [|? ?]] eqn:E;
        try done.
      by destruct (Hargs s).
Qed.

(** [@public @foo def foo()] *)
Lemma from_FunctionDef_decorator_errors_witness :
  outcome (from_FunctionDef (H := demo.compiler)
             samples.foo_unknown_decorator None None true)
  = Raise (Exn FunctionDeclarationException
             [Lit "Unknown decorator: "; FStr "foo"]).
Proof.
  edestruct (from_FunctionDef_decorator_errors (H := demo.compiler)
               samples.foo_unknown_decorator None None true
               [vy_ast.Name "public"] [] (vy_ast.Name "foo"))
    as [Hraise _]; [reflexivity..|exact Hraise].
Defined.


